(** * go-nagios: the performance-data parser and serializer (perfdata.go)

    A shallow embedding of [perfdata.go] and the properties of its
    parser ([ParsePerfData]), validators and serializer ([String]).

    Go strings are modelled by the sequence of code points that Go's
    [range], [strings] and [regexp] packages see when they decode the
    string: a [str] is a list of runes.  All separators and character
    classes of the program are ASCII, white space is [unicode.IsSpace]. *)

From Stdlib Require Import Ascii String List NArith ZArith Bool Lia.
Import ListNotations.

Local Open Scope N_scope.
Local Open Scope list_scope.

(** ** Runes and strings *)

Definition rune := N.
Definition str := list rune.

Definition chr (a : ascii) : rune := N_of_ascii a.

(** The string constant of the source with the given ASCII text. *)
Definition lit (s : String.string) : str := map chr (list_ascii_of_string s).

Definition dquote : rune := 34.   (* the double quote character *)
Definition squote : rune := 39.   (* the single quote character *)

Definition isDigit (r : rune) : bool := (chr "0" <=? r) && (r <=? chr "9").

Definition str_eqb (a b : str) : bool :=
  if list_eq_dec N.eq_dec a b then true else false.

Definition isEmpty (s : str) : bool :=
  match s with [] => true | _ :: _ => false end.

(** [unicode.IsSpace]: the Latin-1 spaces and the White_Space table. *)
Definition isSpace (r : rune) : bool :=
  ((9 <=? r) && (r <=? 13)) || (r =? 32) || (r =? 133) || (r =? 160)
  || (r =? 5760) || ((8192 <=? r) && (r <=? 8202))
  || (r =? 8232) || (r =? 8233) || (r =? 8239) || (r =? 8287) || (r =? 12288).

(** ** The part of package [strings] the parser uses *)

Section While.
Context {A : Type}.
Variable f : A -> bool.

Fixpoint dropWhile (s : list A) : list A :=
  match s with
  | [] => []
  | r :: s' => if f r then dropWhile s' else s
  end.

Fixpoint takeWhile (s : list A) : list A :=
  match s with
  | [] => []
  | r :: s' => if f r then r :: takeWhile s' else []
  end.
End While.

Definition TrimLeftFunc (s : str) (f : rune -> bool) : str := dropWhile f s.
Definition TrimRightFunc (s : str) (f : rune -> bool) : str :=
  rev (dropWhile f (rev s)).
Definition TrimFunc (s : str) (f : rune -> bool) : str :=
  TrimRightFunc (TrimLeftFunc s f) f.

Definition ContainsRune (s : str) (r : rune) : bool := existsb (N.eqb r) s.

(** [strings.TrimSpace] and [strings.Trim s cutset]. *)
Definition TrimSpace (s : str) : str := TrimFunc s isSpace.
Definition Trim (s cutset : str) : str := TrimFunc s (ContainsRune cutset).

(** [strings.ContainsAny s chars]. *)
Definition ContainsAny (s chars : str) : bool := existsb (ContainsRune chars) s.

(** Cutting a string at every rune that satisfies [f]; the result always
    has one piece more than there are such runes. *)
Fixpoint splitFunc (f : rune -> bool) (s : str) : list str :=
  match s with
  | [] => [[]]
  | r :: s' =>
      if f r then [] :: splitFunc f s'
      else match splitFunc f s' with
           | piece :: pieces => (r :: piece) :: pieces
           | [] => [[r]]
           end
  end.

(** [strings.Split s sep] for a separator of one rune: [Count(s, sep) + 1]
    pieces, and the one piece [""] for the empty string. *)
Definition Split (s : str) (sep : rune) : list str := splitFunc (N.eqb sep) s.

(** [strings.Cut]: the text before and after the first [sep]. *)
Fixpoint Cut (s : str) (sep : rune) : option (str * str) :=
  match s with
  | [] => None
  | r :: s' =>
      if sep =? r then Some ([], s')
      else match Cut s' sep with
           | Some (before, after) => Some (r :: before, after)
           | None => None
           end
  end.

(** [strings.SplitN s sep n] for [n > 0] and a separator of one rune: at
    most [n] pieces, the last one being the unsplit remainder. *)
Fixpoint SplitN (s : str) (sep : rune) (n : nat) : list str :=
  match n with
  | O => []
  | S O => [s]
  | S n' =>
      match Cut s sep with
      | Some (before, after) => before :: SplitN after sep n'
      | None => [s]
      end
  end.

(** [strings.Fields]: the maximal runs of runes that are not white space. *)
Definition Fields (s : str) : list str :=
  filter (fun piece => negb (isEmpty piece)) (splitFunc isSpace s).

(** ** The part of package [fmt] the serializer uses

    [Sprintf] for string operands, with the verbs [%s], [%v] and [%%].
    A missing operand, operands left over, a verb at the very end and any
    other verb are rendered the way [fmt] reports them; flags, widths and
    the verbs [%q], [%x] are outside this model (the program's format has
    none). *)
Fixpoint joinExtra (args : list str) : str :=
  match args with
  | [] => []
  | [a] => lit "string=" ++ a
  | a :: rest => lit "string=" ++ a ++ lit ", " ++ joinExtra rest
  end.

Fixpoint Sprintf (format : str) (args : list str) : str :=
  match format with
  | [] =>
      match args with
      | [] => []
      | _ :: _ => lit "%!(EXTRA " ++ joinExtra args ++ lit ")"
      end
  | c :: rest =>
      if c =? chr "%" then
        match rest with
        | [] => lit "%!(NOVERB)"
        | v :: rest' =>
            if v =? chr "%" then chr "%" :: Sprintf rest' args
            else match args with
                 | [] => lit "%!" ++ [v] ++ lit "(MISSING)" ++ Sprintf rest' []
                 | a :: args' =>
                     if (v =? chr "s") || (v =? chr "v")
                     then a ++ Sprintf rest' args'
                     else lit "%!" ++ [v] ++ lit "(string=" ++ a ++ lit ")"
                            ++ Sprintf rest' args'
                 end
        end
      else c :: Sprintf rest args
  end.

(** ** The part of package [regexp] the parser uses

    The patterns of the program are kept as syntax trees, named after the
    operators of [regexp/syntax].  Repetition is over a character class,
    which is all the patterns need.  Matching is Go's leftmost-first
    search: the leftmost start position wins, an alternation prefers its
    left branch, [+], [*] and [?] are greedy. *)

Record class := { negated : bool; ranges : list (rune * rune) }.

Definition inClass (c : class) (r : rune) : bool :=
  xorb (negated c)
       (existsb (fun range => (fst range <=? r) && (r <=? snd range)) (ranges c)).

Inductive regex : Type :=
| OpCharClass (c : class)
| OpLiteral (r : rune)
| OpConcat (a b : regex)
| OpAlternate (a b : regex)
| OpPlus (c : class)
| OpStar (c : class)
| OpQuest (a : regex)
| OpCapture (index : nat) (name : String.string) (a : regex).

(** The text of a capture group, by group number; group 0 is the match. *)
Definition captures := list (nat * str).

Fixpoint capture (caps : captures) (i : nat) : str :=
  match caps with
  | [] => []
  | (j, text) :: caps' => if Nat.eqb i j then text else capture caps' i
  end.

(** The part of [s] read when [rest] is what is left of it. *)
Definition consumed (s rest : str) : str :=
  firstn (length s - length rest)%nat s.

(** Greedy repetition of a class: as many runes as the continuation
    allows, the longest first. *)
Fixpoint greedy (c : class) (s : str) (k : str -> option captures)
  : option captures :=
  match s with
  | r :: s' =>
      if inClass c r then
        match greedy c s' k with
        | Some caps => Some caps
        | None => k s
        end
      else k s
  | [] => k s
  end.

Fixpoint exec (re : regex) (s : str) (caps : captures)
         (k : str -> captures -> option captures) : option captures :=
  match re with
  | OpCharClass c =>
      match s with
      | r :: s' => if inClass c r then k s' caps else None
      | [] => None
      end
  | OpLiteral x =>
      match s with
      | r :: s' => if x =? r then k s' caps else None
      | [] => None
      end
  | OpConcat a b => exec a s caps (fun s' caps' => exec b s' caps' k)
  | OpAlternate a b =>
      match exec a s caps k with
      | Some found => Some found
      | None => exec b s caps k
      end
  | OpPlus c =>
      match s with
      | r :: s' => if inClass c r then greedy c s' (fun s'' => k s'' caps) else None
      | [] => None
      end
  | OpStar c => greedy c s (fun s' => k s' caps)
  | OpQuest a =>
      match exec a s caps k with
      | Some found => Some found
      | None => k s caps
      end
  | OpCapture i _ a =>
      exec a s caps (fun s' caps' => k s' ((i, consumed s s') :: caps'))
  end.

(** A match that starts at the first rune of [s]. *)
Definition matchAt (re : regex) (s : str) : option captures :=
  exec re s [] (fun rest caps => Some ((O, consumed s rest) :: caps)).

(** The leftmost match in [s]. *)
Fixpoint search (re : regex) (s : str) : option captures :=
  match matchAt re s with
  | Some caps => Some caps
  | None =>
      match s with
      | [] => None
      | _ :: s' => search re s'
      end
  end.

Fixpoint NumSubexp (re : regex) : nat :=
  match re with
  | OpCharClass _ | OpLiteral _ | OpPlus _ | OpStar _ => O
  | OpConcat a b | OpAlternate a b => Nat.max (NumSubexp a) (NumSubexp b)
  | OpQuest a => NumSubexp a
  | OpCapture i _ a => Nat.max i (NumSubexp a)
  end.

(** [re.MatchString s]. *)
Definition MatchString (re : regex) (s : str) : bool :=
  match search re s with Some _ => true | None => false end.

(** [re.FindStringSubmatch s]: [None] is the nil slice of no match;
    otherwise the match and the text of every group, [""] for a group
    that took no part. *)
Definition FindStringSubmatch (re : regex) (s : str) : option (list str) :=
  match search re s with
  | Some caps => Some (map (capture caps) (seq O (S (NumSubexp re))))
  | None => None
  end.

(** [re.SubexpIndex name]: the number of the first group of that name,
    [-1] when there is none. *)
Fixpoint SubexpIndex (re : regex) (name : String.string) : Z :=
  match re with
  | OpCharClass _ | OpLiteral _ | OpPlus _ | OpStar _ => (-1)%Z
  | OpConcat a b | OpAlternate a b =>
      if (0 <=? SubexpIndex a name)%Z then SubexpIndex a name
      else SubexpIndex b name
  | OpQuest a => SubexpIndex a name
  | OpCapture i n a =>
      if String.eqb n name then Z.of_nat i else SubexpIndex a name
  end.

(** The value run and the unit run of a string, for a class [cv] of value
    runes and a class [cu] of unit runes: the first maximal run of [cv],
    and the maximal run of [cu] that follows it at once. *)
Definition afterValue (cv : class) (s : str) : str :=
  dropWhile (inClass cv) (dropWhile (fun r => negb (inClass cv r)) s).
Definition valueRun (cv : class) (s : str) : str :=
  takeWhile (inClass cv) (dropWhile (fun r => negb (inClass cv r)) s).
Definition uomRun (cv cu : class) (s : str) : str :=
  takeWhile (inClass cu) (afterValue cv s).

(** ** Errors

    An error is a sentinel or an [fmt.Errorf] value whose format ends in
    [%w]: it keeps the format, the operands before the wrapped error, and
    the wrapped error itself. *)

Inductive operand : Type :=
| OpString (s : str)
| OpInt (n : Z).

(** Modelled from the spec: the three sentinels are declared in another
    file of the package.  [ErrInvalidPerformanceDataFormat] is the single
    root error kind that every specific failure wraps;
    [ErrPerformanceDataMissingLabel] and [ErrPerformanceDataMissingValue]
    are the two record-level failures of the minimal validity check. *)
Inductive error : Type :=
| ErrInvalidPerformanceDataFormat
| ErrPerformanceDataMissingLabel
| ErrPerformanceDataMissingValue
| Errorf (format : String.string) (operands : list operand) (wrapped : error).

Definition error_eqb (a b : error) : bool :=
  match a, b with
  | ErrInvalidPerformanceDataFormat, ErrInvalidPerformanceDataFormat => true
  | ErrPerformanceDataMissingLabel, ErrPerformanceDataMissingLabel => true
  | ErrPerformanceDataMissingValue, ErrPerformanceDataMissingValue => true
  | _, _ => false
  end.

(** [errors.Is err target] for a sentinel [target]: [target] is found
    somewhere along the chain of wrapped errors. *)
Fixpoint Is (err target : error) : bool :=
  error_eqb err target
  || match err with
     | Errorf _ _ wrapped => Is wrapped target
     | _ => false
     end.

(** A Go result [(value, error)]: the value when the error is nil. *)
Inductive result (A : Type) : Type :=
| Ok (a : A)
| Err (e : error).
Arguments Ok {A} a.
Arguments Err {A} e.

Definition fails {A : Type} (r : result A) : Prop :=
  exists e, r = Err e /\ Is e ErrInvalidPerformanceDataFormat = true.

(** ** perfdata.go: constants *)

Definition perfDataMinSemicolonSeparatedFields : Z := 1.
Definition perfDataMaxSemicolonSeparatedFields : Z := 5.

Definition single (r : rune) : rune * rune := (r, r).
Definition digits : rune * rune := (chr "0", chr "9").

(** The class [[-0-9.]]. *)
Definition valueClass : class :=
  {| negated := false; ranges := [single (chr "-"); digits; single (chr ".")] |}.

(** The class [[0-9~@:]]. *)
Definition thresholdClass : class :=
  {| negated := false;
     ranges := [digits; single (chr "~"); single (chr "@"); single (chr ":")] |}.

(** The negated class of the UoM capture: anything but [\d], [;], the
    single quote and the double quote; in Go [\d] is [[0-9]]. *)
Definition uomClass : class :=
  {| negated := true;
     ranges := [digits; single (chr ";"); single squote; single dquote] |}.

(** [[-0-9.]+|U] *)
Definition perfDataValueFieldRegex : regex :=
  OpAlternate (OpPlus valueClass) (OpLiteral (chr "U")).

(** [[-0-9.]+] *)
Definition perfDataMinMaxFieldsRegex : regex := OpPlus valueClass.

(** [[0-9~@:]+] *)
Definition perfDataThresholdRangeSyntaxRegex : regex := OpPlus thresholdClass.

(** The characters [='] *)
Definition perfDataLabelFieldDisallowedCharacters : str := [chr "="; squote].

(** The characters [0123456789;], the single and the double quote. *)
Definition perfDataUoMFieldDisallowedCharacters : str :=
  lit "0123456789;" ++ [squote; dquote].

Definition perfDataValueFieldSubexpName : String.string := "Value".
Definition perfDataUoMFieldSubexpName : String.string := "UoM".

(** The group [Value], [[-0-9.]+], followed by the optional group [UoM]:
    zero or more runes of [uomClass]. *)
Definition perfDataValueAndUoMFieldsRegex : regex :=
  OpConcat (OpCapture 1 "Value" (OpPlus valueClass))
           (OpQuest (OpCapture 2 "UoM" (OpStar uomClass))).

(** ** perfdata.go: the record *)

Record PerformanceData : Type := {
  Label : str;
  Value : str;
  UnitOfMeasurement : str;
  Warn : str;
  Crit : str;
  Min : str;
  Max : str
}.

(** ** perfdata.go: field validators; [None] is the nil error *)

Definition validatePerfDataLabelField (input : str) : option error :=
  let input := TrimSpace input in
  if negb (isEmpty input)
     && negb (ContainsAny input perfDataLabelFieldDisallowedCharacters)
  then None
  else
    let invalidCharErr :=
      Errorf "input string %q contains disallowed character from set %q: %w"
             [OpString input; OpString perfDataLabelFieldDisallowedCharacters]
             ErrInvalidPerformanceDataFormat in
    Some (Errorf "field Label fails validation: %w" [] invalidCharErr).

Definition validatePerfDataValueField (input : str) : option error :=
  let input := TrimSpace input in
  if MatchString perfDataValueFieldRegex input then None
  else Some (Errorf "field Value fails validation: %w" []
                    ErrInvalidPerformanceDataFormat).

Definition validatePerfDataUoMField (input : str) : option error :=
  let input := TrimSpace input in
  if isEmpty input then None
  else if negb (ContainsAny input perfDataUoMFieldDisallowedCharacters) then None
  else
    let invalidCharErr :=
      Errorf "input string %q contains disallowed character from set %q: %w"
             [OpString input; OpString perfDataUoMFieldDisallowedCharacters]
             ErrInvalidPerformanceDataFormat in
    Some (Errorf "field UnitOfMeasurement fails validation: %w" [] invalidCharErr).

Definition validatePerfDataWarnField (input : str) : option error :=
  let input := TrimSpace input in
  if isEmpty input then None
  else if MatchString perfDataThresholdRangeSyntaxRegex input then None
  else Some (Errorf "field Warn fails validation: %w" []
                    ErrInvalidPerformanceDataFormat).

Definition validatePerfDataCritField (input : str) : option error :=
  let input := TrimSpace input in
  if isEmpty input then None
  else if MatchString perfDataThresholdRangeSyntaxRegex input then None
  else Some (Errorf "field Crit fails validation: %w" []
                    ErrInvalidPerformanceDataFormat).

Definition validatePerfDataMinField (input : str) : option error :=
  let input := TrimSpace input in
  if isEmpty input then None
  else if MatchString perfDataMinMaxFieldsRegex input then None
  else Some (Errorf "field Min fails validation: %w" []
                    ErrInvalidPerformanceDataFormat).

Definition validatePerfDataMaxField (input : str) : option error :=
  let input := TrimSpace input in
  if isEmpty input then None
  else if MatchString perfDataMinMaxFieldsRegex input then None
  else Some (Errorf "field Max fails validation: %w" []
                    ErrInvalidPerformanceDataFormat).

(** ** perfdata.go: field parsers *)

Definition parsePerfDataWarnField (input : str) : result str :=
  let input := TrimSpace input in
  match validatePerfDataWarnField input with
  | Some err => Err err
  | None => Ok input
  end.

Definition parsePerfDataCritField (input : str) : result str :=
  let input := TrimSpace input in
  match validatePerfDataCritField input with
  | Some err => Err err
  | None => Ok input
  end.

Definition parsePerfDataMinField (input : str) : result str :=
  let input := TrimSpace input in
  match validatePerfDataMinField input with
  | Some err => Err err
  | None => Ok input
  end.

Definition parsePerfDataMaxField (input : str) : result str :=
  let input := TrimSpace input in
  match validatePerfDataMaxField input with
  | Some err => Err err
  | None => Ok input
  end.

(** ** perfdata.go: the tokenizer and the Value/UoM splitter *)

Definition extractLabelAndRawValue (input : str) : result (str * str) :=
  if isEmpty input then
    Err (Errorf "func extractLabelAndRawValue: empty input provided: %w" []
                ErrInvalidPerformanceDataFormat)
  else
    let labelAndRawValue := SplitN input (chr "=") 2 in
    if negb (Nat.eqb (length labelAndRawValue) 2) then
      Err (Errorf "failed to obtain metric label and raw value from field %q: %w"
                  [OpString input] ErrInvalidPerformanceDataFormat)
    else
      let label := Trim (nth 0 labelAndRawValue []) [squote] in
      let label := TrimSpace label in
      match validatePerfDataLabelField label with
      | Some err =>
          Err (Errorf "failed to extract Label field from input string %q: %w"
                      [OpString input] err)
      | None =>
          let rawValue := TrimSpace (nth 1 labelAndRawValue []) in
          if isEmpty rawValue then
            Err (Errorf "metric value is not present in input string %q: %w"
                        [OpString input] ErrInvalidPerformanceDataFormat)
          else Ok (label, rawValue)
      end.

(** The part of [extractValueAndUoM] that follows a successful match:
    both captures are looked up by name and validated on their own. *)
Definition checkValueAndUoM (re : regex) (input : str) (matches : list str)
  : result (str * str) :=
  let valIndex := SubexpIndex re perfDataValueFieldSubexpName in
  if (valIndex <? 0)%Z then
    Err (Errorf "failed to extract Value field from input string %q: %w"
                [OpString input] ErrInvalidPerformanceDataFormat)
  else
    let value := nth (Z.to_nat valIndex) matches [] in
    match validatePerfDataValueField value with
    | Some err =>
        Err (Errorf "failed to extract Value field from input string %q: %w"
                    [OpString input] err)
    | None =>
        let uomIndex := SubexpIndex re perfDataUoMFieldSubexpName in
        if (0 <=? uomIndex)%Z then
          let uom := nth (Z.to_nat uomIndex) matches [] in
          match validatePerfDataUoMField uom with
          | Some err =>
              Err (Errorf
                     "failed to extract UnitOfMeasurement field from input string %q: %w"
                     [OpString input] err)
          | None => Ok (value, uom)
          end
        else Ok (value, [])
    end.

Definition extractValueAndUoM (input : str) : result (str * str) :=
  if isEmpty input then
    Err (Errorf "func extractValueAndUoM: empty input provided: %w" []
                ErrInvalidPerformanceDataFormat)
  else if str_eqb input (lit "U") then Ok (input, [])
  else
    let re := perfDataValueAndUoMFieldsRegex in
    match FindStringSubmatch re input with
    | None =>
        Err (Errorf
               "failed to extract Value and UoM fields from input string %q: %w"
               [OpString input] ErrInvalidPerformanceDataFormat)
    | Some matches => checkValueAndUoM re input matches
    end.

Definition extractRawWarnCritMinMaxRawFieldVals (perfdataFields : list str)
  : str * str * str * str :=
  let warn := if (2 <=? length perfdataFields)%nat then nth 1 perfdataFields [] else [] in
  let crit := if (3 <=? length perfdataFields)%nat then nth 2 perfdataFields [] else [] in
  let min := if (4 <=? length perfdataFields)%nat then nth 3 perfdataFields [] else [] in
  let max := if (5 <=? length perfdataFields)%nat then nth 4 perfdataFields [] else [] in
  (warn, crit, min, max).

(** ** perfdata.go: the metric assembler *)

Definition parsePerfData (perfdataString : str) : result PerformanceData :=
  let perfdataFields := Split perfdataString (chr ";") in
  let numFields := Z.of_nat (length perfdataFields) in
  if (numFields <? perfDataMinSemicolonSeparatedFields)%Z then
    Err (Errorf
           "input appears to be empty; after processing %d fields found; expected minimum of %d: %w"
           [OpInt numFields; OpInt perfDataMinSemicolonSeparatedFields]
           ErrInvalidPerformanceDataFormat)
  else if (perfDataMaxSemicolonSeparatedFields <? numFields)%Z then
    Err (Errorf
           "input contains %d semicolon separated fields; expected no more than %d: %w"
           [OpInt numFields; OpInt perfDataMaxSemicolonSeparatedFields]
           ErrInvalidPerformanceDataFormat)
  else
    match extractLabelAndRawValue (nth 0 perfdataFields []) with
    | Err err => Err (Errorf "failed to extract label and raw value: %w" [] err)
    | Ok (label, rawValue) =>
    match extractValueAndUoM rawValue with
    | Err err => Err (Errorf "failed to extract value and uom: %w" [] err)
    | Ok (value, uom) =>
    let '(rawWarn, rawCrit, rawMin, rawMax) :=
      extractRawWarnCritMinMaxRawFieldVals perfdataFields in
    match parsePerfDataWarnField rawWarn with
    | Err err => Err (Errorf "failed to parse warn field: %w" [] err)
    | Ok warn =>
    match parsePerfDataCritField rawCrit with
    | Err err => Err (Errorf "failed to parse crit field: %w" [] err)
    | Ok crit =>
    match parsePerfDataMinField rawMin with
    | Err err => Err (Errorf "failed to parse min field: %w" [] err)
    | Ok min =>
    match parsePerfDataMaxField rawMax with
    | Err err => Err (Errorf "failed to parse max field: %w" [] err)
    | Ok max =>
        Ok {| Label := label; Value := value; UnitOfMeasurement := uom;
              Warn := warn; Crit := crit; Min := min; Max := max |}
    end end end end end end.

(** ** perfdata.go: the exported functions *)

(** The loop of [ParsePerfData]: the first metric that fails ends it. *)
Fixpoint parseEach (perfdataStrings : list str) (results : list PerformanceData)
  : result (list PerformanceData) :=
  match perfdataStrings with
  | [] => Ok results
  | perfdataString :: rest =>
      match parsePerfData perfdataString with
      | Err err => Err err
      | Ok perfdata => parseEach rest (results ++ [perfdata])
      end
  end.

Definition ParsePerfData (rawPerfdata : str) : result (list PerformanceData) :=
  if isEmpty (TrimSpace rawPerfdata) then
    Err (Errorf "missing input performance data string: %w" []
                ErrInvalidPerformanceDataFormat)
  else
    let rawPerfdata := Trim rawPerfdata [dquote] in
    let perfdataStrings := Fields rawPerfdata in
    parseEach perfdataStrings [].

(** The metric substrings [ParsePerfData] hands to [parsePerfData]. *)
Definition metrics (rawPerfdata : str) : list str :=
  Fields (Trim rawPerfdata [dquote]).

Definition Validate (pd : PerformanceData) : option error :=
  if isEmpty (Label pd) then Some ErrPerformanceDataMissingLabel
  else if isEmpty (Value pd) then Some ErrPerformanceDataMissingValue
  else None.

Definition String (pd : PerformanceData) : str :=
  Sprintf (lit " '%s'=%s%s;%s;%s;%s;%s")
          [Label pd; Value pd; UnitOfMeasurement pd;
           Warn pd; Crit pd; Min pd; Max pd].

(** ** Notions used to state the properties *)

Definition fieldsOf (pd : PerformanceData) : list str :=
  [Label pd; Value pd; UnitOfMeasurement pd; Warn pd; Crit pd; Min pd; Max pd].

(** What every record that comes out of the parser satisfies: no field
    holds white space or a semicolon; the label is not empty and free of
    [=] and the single quote; the value is [U] with no unit, or a run of
    [[-0-9.]] followed by a unit of allowed runes that does not go on with
    a rune of the value class; Warn, Crit, Min and Max pass their checks. *)
Record parsedShape (pd : PerformanceData) : Prop := {
  shape_nospace : Forall (fun s => existsb isSpace s = false) (fieldsOf pd);
  shape_nosemi : Forall (fun s => existsb (N.eqb (chr ";")) s = false) (fieldsOf pd);
  shape_label : Label pd <> []
                /\ ContainsAny (Label pd) perfDataLabelFieldDisallowedCharacters = false;
  shape_value : (Value pd = lit "U" /\ UnitOfMeasurement pd = [])
                \/ (Value pd <> []
                    /\ forallb (inClass valueClass) (Value pd) = true
                    /\ forallb (inClass uomClass) (UnitOfMeasurement pd) = true
                    /\ match UnitOfMeasurement pd with
                       | [] => True
                       | r :: _ => inClass valueClass r = false
                       end);
  shape_warn : validatePerfDataWarnField (Warn pd) = None;
  shape_crit : validatePerfDataCritField (Crit pd) = None;
  shape_min : validatePerfDataMinField (Min pd) = None;
  shape_max : validatePerfDataMaxField (Max pd) = None
}.

(** A well-formed metric string with all five fields, after the grammar
    [label = value-uom ; warn ; crit ; min ; max]: the label, in single
    quotes or bare, has no single quote and no [=]; value-uom is [U], or a
    number of [[-0-9.]+] with a unit free of digits, [;] and quotes; warn
    and crit are of [[0-9~@:]*], min and max of [[-0-9.]*]. *)
Definition wellFormedMetric (s : str) : Prop :=
  exists (quoted : bool) (label value uom warn crit min max : str),
    s = (if quoted then squote :: label ++ [squote] else label)
          ++ chr "=" :: value ++ uom
          ++ chr ";" :: warn ++ chr ";" :: crit
          ++ chr ";" :: min ++ chr ";" :: max
    /\ ContainsAny label perfDataLabelFieldDisallowedCharacters = false
    /\ ((value = lit "U" /\ uom = [])
        \/ (value <> [] /\ forallb (inClass valueClass) value = true
                        /\ forallb (inClass uomClass) uom = true))
    /\ forallb (inClass thresholdClass) warn = true
    /\ forallb (inClass thresholdClass) crit = true
    /\ forallb (inClass valueClass) min = true
    /\ forallb (inClass valueClass) max = true.

(** * Properties *)

(** ** Runs of a list *)

Section WhileFacts.
Context {A : Type}.
Variable f : A -> bool.

Lemma takeWhile_dropWhile (s : list A) : takeWhile f s ++ dropWhile f s = s.
Proof.
  induction s as [|r s IH]; simpl; [reflexivity|].
  destruct (f r); simpl; [now rewrite IH | reflexivity].
Qed.

Lemma takeWhile_all (s : list A) : forallb f (takeWhile f s) = true.
Proof.
  induction s as [|r s IH]; simpl; [reflexivity|].
  destruct (f r) eqn:E; simpl; [now rewrite E | reflexivity].
Qed.

Lemma dropWhile_head (s : list A) :
  match dropWhile f s with [] => True | r :: _ => f r = false end.
Proof.
  induction s as [|r s IH]; simpl; [exact I|].
  destruct (f r) eqn:E; [exact IH | exact E].
Qed.

Lemma dropWhile_length (s : list A) : (length (dropWhile f s) <= length s)%nat.
Proof.
  induction s as [|r s IH]; simpl; [lia|].
  destruct (f r); simpl; lia.
Qed.

Lemma dropWhile_none (s : list A) : existsb f s = false -> dropWhile f s = s.
Proof.
  destruct s as [|r s]; simpl; [reflexivity|].
  destruct (f r); simpl; [discriminate | reflexivity].
Qed.

Lemma dropWhile_all (s : list A) : forallb f s = true -> dropWhile f s = [].
Proof.
  induction s as [|r s IH]; simpl; [reflexivity|].
  destruct (f r); simpl; [exact IH | discriminate].
Qed.

Lemma takeWhile_full (s : list A) : forallb f s = true -> takeWhile f s = s.
Proof.
  induction s as [|r s IH]; simpl; [reflexivity|].
  destruct (f r); simpl; [intros H; now rewrite IH | discriminate].
Qed.

Lemma dropWhile_app_all (s t : list A) :
  forallb f s = true -> dropWhile f (s ++ t) = dropWhile f t.
Proof.
  induction s as [|r s IH]; simpl; [reflexivity|].
  destruct (f r); simpl; [exact IH | discriminate].
Qed.

Lemma takeWhile_app_stop (s t : list A) :
  forallb f s = true ->
  match t with [] => True | r :: _ => f r = false end ->
  takeWhile f (s ++ t) = s.
Proof.
  intros Hs Ht. induction s as [|r s IH]; simpl in *.
  - destruct t as [|r t]; simpl; [reflexivity | now rewrite Ht].
  - destruct (f r); simpl in *; [now rewrite IH | discriminate].
Qed.

Lemma dropWhile_app_stop (s t : list A) :
  forallb f s = true ->
  match t with [] => True | r :: _ => f r = false end ->
  dropWhile f (s ++ t) = t.
Proof.
  intros Hs Ht. rewrite dropWhile_app_all by exact Hs.
  destruct t as [|r t]; simpl; [reflexivity | now rewrite Ht].
Qed.

(** A test that fails on every rune [f] accepts sees the same answer
    before and after the leading run of [f] is dropped. *)
Lemma existsb_dropWhile (g : A -> bool) (s : list A) :
  (forall r, g r = true -> f r = false) ->
  existsb g (dropWhile f s) = existsb g s.
Proof.
  intros Hg. induction s as [|r s IH]; simpl; [reflexivity|].
  destruct (f r) eqn:E; simpl; [|reflexivity].
  rewrite IH. destruct (g r) eqn:G; [|reflexivity].
  apply Hg in G. congruence.
Qed.

Lemma existsb_false_dropWhile (g : A -> bool) (s : list A) :
  existsb g s = false -> existsb g (dropWhile f s) = false.
Proof.
  induction s as [|r s IH]; simpl; [reflexivity|].
  intros H. apply orb_false_iff in H as [H1 H2].
  destruct (f r); simpl; [now apply IH | now rewrite H1, H2].
Qed.

Lemma existsb_false_takeWhile (g : A -> bool) (s : list A) :
  existsb g s = false -> existsb g (takeWhile f s) = false.
Proof.
  induction s as [|r s IH]; simpl; [reflexivity|].
  intros H. apply orb_false_iff in H as [H1 H2].
  destruct (f r); simpl; [now rewrite H1, IH | reflexivity].
Qed.
End WhileFacts.

Lemma existsb_rev {A : Type} (g : A -> bool) (s : list A) :
  existsb g (rev s) = existsb g s.
Proof.
  induction s as [|r s IH]; simpl; [reflexivity|].
  rewrite existsb_app, IH. simpl. rewrite orb_false_r. apply orb_comm.
Qed.

Lemma existsb_false_app {A : Type} (g : A -> bool) (a b : list A) :
  existsb g (a ++ b) = false <-> existsb g a = false /\ existsb g b = false.
Proof. rewrite existsb_app. apply orb_false_iff. Qed.

Lemma forallb_rev {A : Type} (g : A -> bool) (s : list A) :
  forallb g (rev s) = forallb g s.
Proof.
  induction s as [|r s IH]; simpl; [reflexivity|].
  rewrite forallb_app, IH. simpl. rewrite andb_true_r. apply andb_comm.
Qed.

Lemma isEmpty_true (s : str) : isEmpty s = true <-> s = [].
Proof. destruct s; simpl; split; congruence. Qed.

Lemma isEmpty_false (s : str) : isEmpty s = false <-> s <> [].
Proof. destruct s; simpl; split; congruence. Qed.

Lemma str_eqb_eq (a b : str) : str_eqb a b = true <-> a = b.
Proof. unfold str_eqb. destruct (list_eq_dec N.eq_dec a b); split; congruence. Qed.

(** ** Trimming *)

Lemma TrimFunc_none (s : str) (f : rune -> bool) :
  existsb f s = false -> TrimFunc s f = s.
Proof.
  intros H. unfold TrimFunc, TrimLeftFunc, TrimRightFunc.
  rewrite (dropWhile_none f s H).
  rewrite dropWhile_none by now rewrite existsb_rev.
  apply rev_involutive.
Qed.

(** Trimming removes every leading and every trailing rune of the set,
    whatever their number. *)
Lemma TrimFunc_layers (f : rune -> bool) (pre s post : str) :
  forallb f pre = true -> forallb f post = true -> existsb f s = false ->
  TrimFunc (pre ++ s ++ post) f = s.
Proof.
  intros Hpre Hpost Hs. unfold TrimFunc, TrimLeftFunc, TrimRightFunc.
  rewrite dropWhile_app_all by exact Hpre.
  destruct s as [|r s].
  - simpl. rewrite (dropWhile_all f post Hpost). reflexivity.
  - assert (Hr : f r = false) by (simpl in Hs; now apply orb_false_iff in Hs).
    change ((r :: s) ++ post) with (r :: (s ++ post)).
    simpl dropWhile at 2. rewrite Hr.
    change (r :: s ++ post) with ((r :: s) ++ post).
    rewrite rev_app_distr.
    rewrite dropWhile_app_all by now rewrite forallb_rev.
    rewrite dropWhile_none by now rewrite existsb_rev.
    apply rev_involutive.
Qed.

Lemma existsb_TrimFunc (f g : rune -> bool) (s : str) :
  (forall r, g r = true -> f r = false) ->
  existsb g (TrimFunc s f) = existsb g s.
Proof.
  intros Hg. unfold TrimFunc, TrimLeftFunc, TrimRightFunc.
  rewrite existsb_rev, existsb_dropWhile by exact Hg.
  rewrite existsb_rev. now apply existsb_dropWhile.
Qed.

Lemma existsb_false_TrimFunc (f g : rune -> bool) (s : str) :
  existsb g s = false -> existsb g (TrimFunc s f) = false.
Proof.
  intros H. unfold TrimFunc, TrimLeftFunc, TrimRightFunc.
  rewrite existsb_rev. apply existsb_false_dropWhile.
  rewrite existsb_rev. now apply existsb_false_dropWhile.
Qed.

Lemma dropWhile_app_some {A : Type} (f : A -> bool) (s t : list A) :
  forallb f s = false -> dropWhile f (s ++ t) = dropWhile f s ++ t.
Proof.
  induction s as [|r s IH]; simpl; [discriminate|].
  destruct (f r); simpl; [exact IH | reflexivity].
Qed.

(** Runes of the set around a string do not change what trimming leaves. *)
Lemma TrimFunc_pad (f : rune -> bool) (pre s post : str) :
  forallb f pre = true -> forallb f post = true ->
  TrimFunc (pre ++ s ++ post) f = TrimFunc s f.
Proof.
  intros Hpre Hpost. unfold TrimFunc, TrimLeftFunc, TrimRightFunc.
  rewrite dropWhile_app_all by exact Hpre.
  destruct (forallb f s) eqn:Hs.
  - rewrite dropWhile_app_all by exact Hs.
    now rewrite (dropWhile_all f post Hpost), (dropWhile_all f s Hs).
  - rewrite dropWhile_app_some by exact Hs.
    rewrite rev_app_distr.
    now rewrite dropWhile_app_all by now rewrite forallb_rev.
Qed.

(** Trimming leaves alone a string that neither starts nor ends with a
    rune of the set. *)
Lemma TrimFunc_ends (f : rune -> bool) (r : rune) (s : str) :
  f r = false -> f (last s r) = false -> TrimFunc (r :: s) f = r :: s.
Proof.
  intros Hr Hl. unfold TrimFunc, TrimLeftFunc, TrimRightFunc.
  simpl dropWhile at 2. rewrite Hr.
  assert (Hd : dropWhile f (rev (r :: s)) = rev (r :: s)).
  { destruct (rev (r :: s)) as [|x xs] eqn:E; [reflexivity|].
    assert (Hx : x = last s r).
    { assert (E' : r :: s = rev xs ++ [x]).
      { rewrite <- (rev_involutive (r :: s)), E. reflexivity. }
      destruct s as [|y s]; simpl.
      - destruct (rev xs) as [|z zs]; simpl in E'; [congruence|].
        destruct zs; simpl in E'; discriminate.
      - change (r :: y :: s) with ([r] ++ (y :: s)) in E'.
        assert (E2 : last (r :: y :: s) r = x).
        { change (r :: y :: s) with ([r] ++ (y :: s)). rewrite E'.
          apply last_last. }
        simpl in E2. simpl. symmetry. exact E2. }
    simpl. rewrite Hx, Hl. reflexivity. }
  rewrite Hd. apply rev_involutive.
Qed.

(** ** What the matcher computes on the shapes of pattern the program has *)

Lemma consumed_app (a b : str) : consumed (a ++ b) b = a.
Proof.
  unfold consumed. rewrite length_app.
  replace (length a + length b - length b)%nat with (length a + 0)%nat by lia.
  rewrite firstn_app_2. simpl. apply app_nil_r.
Qed.

Lemma consumed_dropWhile (f : rune -> bool) (s : str) :
  consumed s (dropWhile f s) = takeWhile f s.
Proof.
  rewrite <- (takeWhile_dropWhile f s) at 1. apply consumed_app.
Qed.

Lemma greedy_total (c : class) (s : str) (k : str -> option captures) :
  (forall rest, k rest <> None) ->
  greedy c s k = k (dropWhile (inClass c) s).
Proof.
  intros Hk. induction s as [|r s IH]; simpl; [reflexivity|].
  destruct (inClass c r); [|reflexivity].
  rewrite IH. destruct (k (dropWhile (inClass c) s)) eqn:E; [reflexivity|].
  now apply Hk in E.
Qed.

Section Shapes.
Variables cv cu : class.
Variable u : rune.

(** A pattern [C+] is found exactly in the strings that hold a rune of
    [C]: the search has no anchor. *)
Lemma matchAt_plus (s : str) :
  matchAt (OpPlus cv) s =
  match s with
  | r :: s' =>
      if inClass cv r
      then Some [(O, consumed s (dropWhile (inClass cv) s'))]
      else None
  | [] => None
  end.
Proof.
  destruct s as [|r s']; [reflexivity|].
  unfold matchAt. simpl. destruct (inClass cv r); [|reflexivity].
  now rewrite greedy_total.
Qed.

Lemma MatchString_plus (s : str) :
  MatchString (OpPlus cv) s = existsb (inClass cv) s.
Proof.
  unfold MatchString. induction s as [|r s IH].
  - reflexivity.
  - simpl search. rewrite matchAt_plus. simpl existsb.
    destruct (inClass cv r); [reflexivity|]. exact IH.
Qed.

(** A pattern [C+|U] is found in the strings that hold a rune of [C] or
    a [U]. *)
Lemma MatchString_plus_or_literal (s : str) :
  MatchString (OpAlternate (OpPlus cv) (OpLiteral u)) s =
  existsb (fun r => inClass cv r || (u =? r)) s.
Proof.
  unfold MatchString. induction s as [|r s IH].
  - reflexivity.
  - simpl search. simpl existsb.
    assert (E : matchAt (OpAlternate (OpPlus cv) (OpLiteral u)) (r :: s) =
                if inClass cv r || (u =? r)
                then matchAt (OpAlternate (OpPlus cv) (OpLiteral u)) (r :: s)
                else None).
    { unfold matchAt. simpl.
      destruct (inClass cv r); [reflexivity|]. simpl.
      destruct (u =? r); reflexivity. }
    destruct (inClass cv r || (u =? r)) eqn:B.
    + assert (S' : exists caps,
               matchAt (OpAlternate (OpPlus cv) (OpLiteral u)) (r :: s) = Some caps).
      { unfold matchAt. simpl. destruct (inClass cv r) eqn:C.
        - rewrite greedy_total by discriminate. eauto.
        - simpl in B. rewrite B. eauto. }
      destruct S' as [caps ->]. reflexivity.
    + rewrite E. exact IH.
Qed.

Let valueAndUoM : regex :=
  OpConcat (OpCapture 1 "Value" (OpPlus cv))
           (OpQuest (OpCapture 2 "UoM" (OpStar cu))).

Lemma matchAt_valueAndUoM (s : str) :
  matchAt valueAndUoM s =
  match s with
  | r :: s' =>
      if inClass cv r
      then Some [(O, takeWhile (inClass cv) s
                       ++ takeWhile (inClass cu) (dropWhile (inClass cv) s));
                 (2%nat, takeWhile (inClass cu) (dropWhile (inClass cv) s));
                 (1%nat, takeWhile (inClass cv) s)]
      else None
  | [] => None
  end.
Proof.
  destruct s as [|r s']; [reflexivity|].
  unfold matchAt, valueAndUoM. simpl exec. simpl takeWhile. simpl dropWhile.
  destruct (inClass cv r) eqn:C; [|reflexivity].
  rewrite greedy_total.
  - rewrite greedy_total by discriminate.
    rewrite consumed_dropWhile.
    replace (consumed (r :: s') (dropWhile (inClass cv) s'))
      with (r :: takeWhile (inClass cv) s').
    2:{ rewrite <- (takeWhile_dropWhile (inClass cv) s') at 2.
        change (r :: takeWhile (inClass cv) s' ++ dropWhile (inClass cv) s')
          with ((r :: takeWhile (inClass cv) s') ++ dropWhile (inClass cv) s').
        now rewrite consumed_app. }
    replace (consumed (r :: s')
               (dropWhile (inClass cu) (dropWhile (inClass cv) s')))
      with (r :: takeWhile (inClass cv) s'
              ++ takeWhile (inClass cu) (dropWhile (inClass cv) s')).
    2:{ set (x := dropWhile (inClass cv) s').
        assert (E : r :: s' =
                    (r :: takeWhile (inClass cv) s' ++ takeWhile (inClass cu) x)
                      ++ dropWhile (inClass cu) x).
        { simpl. rewrite <- app_assoc, takeWhile_dropWhile.
          unfold x. now rewrite takeWhile_dropWhile. }
        rewrite E at 1. now rewrite consumed_app. }
    reflexivity.
  - intros rest. rewrite greedy_total by discriminate. discriminate.
Qed.

Lemma search_valueAndUoM (s : str) :
  search valueAndUoM s =
  if existsb (inClass cv) s
  then Some [(O, valueRun cv s ++ uomRun cv cu s); (2%nat, uomRun cv cu s); (1%nat, valueRun cv s)]
  else None.
Proof.
  induction s as [|r s IH]; [reflexivity|].
  simpl search. rewrite matchAt_valueAndUoM.
  unfold valueRun, uomRun, afterValue in *. simpl existsb.
  simpl (dropWhile (fun r0 : rune => negb (inClass cv r0)) (r :: s)).
  destruct (inClass cv r) eqn:C; simpl negb; cbv iota.
  - reflexivity.
  - simpl orb. exact IH.
Qed.

Lemma FindStringSubmatch_valueAndUoM (s : str) :
  FindStringSubmatch valueAndUoM s =
  if existsb (inClass cv) s
  then Some [valueRun cv s ++ uomRun cv cu s; valueRun cv s; uomRun cv cu s]
  else None.
Proof.
  unfold FindStringSubmatch. rewrite search_valueAndUoM.
  destruct (existsb (inClass cv) s); reflexivity.
Qed.

Lemma valueRun_nonempty (s : str) :
  existsb (inClass cv) s = true -> valueRun cv s <> [].
Proof.
  unfold valueRun. induction s as [|r s IH]; simpl; [discriminate|].
  destruct (inClass cv r) eqn:C; simpl.
  - rewrite C. discriminate.
  - exact IH.
Qed.

(** The shape of the leftmost match: what precedes the value run has no
    rune of [cv], and both runs are maximal. *)
Lemma valueAndUoM_layout (s : str) :
  exists pre rest,
    s = pre ++ valueRun cv s ++ uomRun cv cu s ++ rest
    /\ existsb (inClass cv) pre = false
    /\ forallb (inClass cv) (valueRun cv s) = true
    /\ forallb (inClass cu) (uomRun cv cu s) = true
    /\ match uomRun cv cu s ++ rest with
       | [] => True
       | r :: _ => inClass cv r = false
       end
    /\ match rest with
       | [] => True
       | r :: _ => inClass cu r = false
       end.
Proof.
  exists (takeWhile (fun r => negb (inClass cv r)) s),
         (dropWhile (inClass cu) (afterValue cv s)).
  unfold valueRun, uomRun.
  repeat split.
  - rewrite takeWhile_dropWhile. unfold afterValue.
    now rewrite !takeWhile_dropWhile.
  - induction s as [|r s IH]; simpl; [reflexivity|].
    destruct (inClass cv r) eqn:C; simpl; [reflexivity|].
    now rewrite C, IH.
  - apply takeWhile_all.
  - apply takeWhile_all.
  - rewrite takeWhile_dropWhile. unfold afterValue. apply dropWhile_head.
  - apply dropWhile_head.
Qed.
End Shapes.

(** The matcher on a few strings, pattern by pattern. *)
Lemma matcher_examples :
  FindStringSubmatch perfDataValueAndUoMFieldsRegex (lit "120ms")
    = Some [lit "120ms"; lit "120"; lit "ms"]
  /\ FindStringSubmatch perfDataValueAndUoMFieldsRegex (lit "-0.5")
     = Some [lit "-0.5"; lit "-0.5"; []]
  /\ FindStringSubmatch perfDataValueAndUoMFieldsRegex (lit "x1.5%;2")
     = Some [lit "1.5%"; lit "1.5"; lit "%"]
  /\ FindStringSubmatch perfDataValueAndUoMFieldsRegex (lit "ms") = None
  /\ SubexpIndex perfDataValueAndUoMFieldsRegex perfDataValueFieldSubexpName = 1%Z
  /\ SubexpIndex perfDataValueAndUoMFieldsRegex perfDataUoMFieldSubexpName = 2%Z
  /\ SubexpIndex perfDataValueAndUoMFieldsRegex "Unit" = (-1)%Z
  /\ MatchString perfDataValueFieldRegex (lit "U") = true
  /\ MatchString perfDataValueFieldRegex (lit "n/a") = false
  /\ MatchString perfDataThresholdRangeSyntaxRegex (lit "~:10") = true
  /\ MatchString perfDataMinMaxFieldsRegex (lit "max") = false.
Proof. repeat split; vm_compute; reflexivity. Qed.

(** ** The character classes *)

Ltac rune_unfold :=
  unfold inClass, valueClass, thresholdClass, uomClass, isSpace, isDigit,
    ContainsRune,
    perfDataUoMFieldDisallowedCharacters,
    perfDataLabelFieldDisallowedCharacters in *;
  cbn -[N.leb N.eqb] in *; unfold squote, dquote in *;
  repeat match goal with
    | |- context [if ?b then false else true] =>
        change (if b then false else true) with (negb b)
    | H : context [if ?b then false else true] |- _ =>
        change (if b then false else true) with (negb b) in H
    end.

Ltac rune_prop :=
  rewrite ?negb_true_iff, ?negb_false_iff, ?orb_true_iff, ?orb_false_iff,
    ?andb_true_iff, ?andb_false_iff, ?N.eqb_eq, ?N.eqb_neq, ?N.leb_le,
    ?N.leb_gt in *.

Ltac rune_solve := rune_unfold; rune_prop; lia.

Lemma value_not_space (r : rune) : inClass valueClass r = true -> isSpace r = false.
Proof. rune_solve. Qed.

Lemma threshold_not_space (r : rune) :
  inClass thresholdClass r = true -> isSpace r = false.
Proof. rune_solve. Qed.

Lemma value_or_U_not_space (r : rune) :
  inClass valueClass r || (chr "U" =? r) = true -> isSpace r = false.
Proof. rune_solve. Qed.

Lemma value_not_U (r : rune) : inClass valueClass r = true -> r <> chr "U".
Proof. rune_solve. Qed.

Lemma uom_allowed (r : rune) :
  inClass uomClass r = true ->
  ContainsRune perfDataUoMFieldDisallowedCharacters r = false.
Proof. rune_solve. Qed.


Lemma digit_not_in_uomClass (r : rune) :
  isDigit r = true -> inClass uomClass r = false.
Proof. rune_solve. Qed.


Lemma space_not_squote (r : rune) :
  isSpace r = true -> ContainsRune [squote] r = false.
Proof. rune_solve. Qed.

Lemma space_not_equals (r : rune) : isSpace r = true -> (chr "=" =? r) = false.
Proof. rune_solve. Qed.


Lemma existsb_ext_true {A : Type} (f g : A -> bool) (s : list A) :
  (forall r, f r = true -> g r = true) ->
  existsb f s = true -> existsb g s = true.
Proof.
  intros H. induction s as [|r s IH]; simpl; [discriminate|].
  intros E. apply orb_true_iff in E as [E|E].
  - now rewrite (H r E).
  - rewrite (IH E). apply orb_true_r.
Qed.

Lemma existsb_ext_false {A : Type} (f g : A -> bool) (s : list A) :
  (forall r, g r = true -> f r = true) ->
  existsb f s = false -> existsb g s = false.
Proof.
  intros H E. destruct (existsb g s) eqn:G; [|reflexivity].
  rewrite (existsb_ext_true g f s H G) in E. discriminate.
Qed.

Lemma forallb_existsb_false {A : Type} (f g : A -> bool) (s : list A) :
  (forall r, f r = true -> g r = false) ->
  forallb f s = true -> existsb g s = false.
Proof.
  intros H. induction s as [|r s IH]; simpl; [reflexivity|].
  intros E. apply andb_true_iff in E as [E1 E2].
  now rewrite (H r E1), (IH E2).
Qed.

(** ** What each validator decides *)

Lemma MatchString_TrimSpace_plus (c : class) (s : str) :
  (forall r, inClass c r = true -> isSpace r = false) ->
  MatchString (OpPlus c) (TrimSpace s) = existsb (inClass c) s.
Proof.
  intros H. rewrite MatchString_plus. now apply existsb_TrimFunc.
Qed.

Lemma validatePerfDataWarnField_spec (input : str) :
  validatePerfDataWarnField input =
  if isEmpty (TrimSpace input) || existsb (inClass thresholdClass) input
  then None
  else Some (Errorf "field Warn fails validation: %w" []
                    ErrInvalidPerformanceDataFormat).
Proof.
  unfold validatePerfDataWarnField, perfDataThresholdRangeSyntaxRegex.
  rewrite MatchString_TrimSpace_plus by exact threshold_not_space.
  destruct (isEmpty (TrimSpace input)); reflexivity.
Qed.

Lemma validatePerfDataCritField_spec (input : str) :
  validatePerfDataCritField input =
  if isEmpty (TrimSpace input) || existsb (inClass thresholdClass) input
  then None
  else Some (Errorf "field Crit fails validation: %w" []
                    ErrInvalidPerformanceDataFormat).
Proof.
  unfold validatePerfDataCritField, perfDataThresholdRangeSyntaxRegex.
  rewrite MatchString_TrimSpace_plus by exact threshold_not_space.
  destruct (isEmpty (TrimSpace input)); reflexivity.
Qed.

Lemma validatePerfDataMinField_spec (input : str) :
  validatePerfDataMinField input =
  if isEmpty (TrimSpace input) || existsb (inClass valueClass) input
  then None
  else Some (Errorf "field Min fails validation: %w" []
                    ErrInvalidPerformanceDataFormat).
Proof.
  unfold validatePerfDataMinField, perfDataMinMaxFieldsRegex.
  rewrite MatchString_TrimSpace_plus by exact value_not_space.
  destruct (isEmpty (TrimSpace input)); reflexivity.
Qed.

Lemma validatePerfDataMaxField_spec (input : str) :
  validatePerfDataMaxField input =
  if isEmpty (TrimSpace input) || existsb (inClass valueClass) input
  then None
  else Some (Errorf "field Max fails validation: %w" []
                    ErrInvalidPerformanceDataFormat).
Proof.
  unfold validatePerfDataMaxField, perfDataMinMaxFieldsRegex.
  rewrite MatchString_TrimSpace_plus by exact value_not_space.
  destruct (isEmpty (TrimSpace input)); reflexivity.
Qed.

Lemma validatePerfDataValueField_spec (input : str) :
  validatePerfDataValueField input =
  if existsb (fun r => inClass valueClass r || (chr "U" =? r)) input
  then None
  else Some (Errorf "field Value fails validation: %w" []
                    ErrInvalidPerformanceDataFormat).
Proof.
  unfold validatePerfDataValueField, perfDataValueFieldRegex.
  rewrite MatchString_plus_or_literal.
  unfold TrimSpace. rewrite existsb_TrimFunc by exact value_or_U_not_space.
  reflexivity.
Qed.

(** Every error a validator returns wraps the root sentinel. *)
Lemma validator_errors_wrap :
  (forall s e, validatePerfDataLabelField s = Some e ->
               Is e ErrInvalidPerformanceDataFormat = true)
  /\ (forall s e, validatePerfDataValueField s = Some e ->
                  Is e ErrInvalidPerformanceDataFormat = true)
  /\ (forall s e, validatePerfDataUoMField s = Some e ->
                  Is e ErrInvalidPerformanceDataFormat = true)
  /\ (forall s e, validatePerfDataWarnField s = Some e ->
                  Is e ErrInvalidPerformanceDataFormat = true)
  /\ (forall s e, validatePerfDataCritField s = Some e ->
                  Is e ErrInvalidPerformanceDataFormat = true)
  /\ (forall s e, validatePerfDataMinField s = Some e ->
                  Is e ErrInvalidPerformanceDataFormat = true)
  /\ (forall s e, validatePerfDataMaxField s = Some e ->
                  Is e ErrInvalidPerformanceDataFormat = true).
Proof.
  unfold validatePerfDataLabelField, validatePerfDataValueField,
    validatePerfDataUoMField, validatePerfDataWarnField,
    validatePerfDataCritField, validatePerfDataMinField,
    validatePerfDataMaxField.
  repeat split; intros s e H;
    repeat match type of H with
      | (if ?b then _ else _) = _ => destruct b
      end;
    inversion H; reflexivity.
Qed.

(** ** The serializer *)

(** C9: for every record, validated or not, [String] returns one leading
    space, the label between single quotes, [=], the value and the unit
    with nothing between them, and then Warn, Crit, Min and Max, each
    after its own semicolon, also when they are empty.  [String] is a total
    function of the record and looks at no field: the record of seven
    empty strings, which [Validate] refuses, is rendered all the same. *)
Theorem String_canonical_form :
  (forall pd : PerformanceData,
      String pd =
      lit " '" ++ Label pd ++ lit "'=" ++ Value pd ++ UnitOfMeasurement pd
        ++ lit ";" ++ Warn pd ++ lit ";" ++ Crit pd
        ++ lit ";" ++ Min pd ++ lit ";" ++ Max pd)
  /\ (let blank := {| Label := []; Value := []; UnitOfMeasurement := [];
                     Warn := []; Crit := []; Min := []; Max := [] |} in
      Validate blank = Some ErrPerformanceDataMissingLabel
      /\ String blank = lit " ''=;;;;").
Proof.
  split.
  - intros pd. unfold String. cbn. rewrite app_nil_r. reflexivity.
  - split; reflexivity.
Qed.

(** ** Concrete batches *)

(** C7: the batch with a trailing semicolon and the batch without it parse
    to the same single record, whose Max is empty. *)
Theorem trailing_semicolon_is_optional :
  ParsePerfData (lit "load1=0.26;5;10;0;") = ParsePerfData (lit "load1=0.26;5;10;0")
  /\ ParsePerfData (lit "load1=0.26;5;10;0") =
     Ok [ {| Label := lit "load1"; Value := lit "0.26"; UnitOfMeasurement := [];
             Warn := lit "5"; Crit := lit "10"; Min := lit "0"; Max := [] |} ].
Proof. split; vm_compute; reflexivity. Qed.

(** C8: the batch [users=U] parses to one record with Value [U] and an
    empty unit.  The value half [U] is answered before the pattern is
    consulted: the pattern finds nothing in [U] (no rune of the numeric
    class is in it), so the match stage would have refused it. *)
Theorem unknown_value_short_circuit :
  ParsePerfData (lit "users=U") =
    Ok [ {| Label := lit "users"; Value := lit "U"; UnitOfMeasurement := [];
            Warn := []; Crit := []; Min := []; Max := [] |} ]
  /\ extractValueAndUoM (lit "U") = Ok (lit "U", [])
  /\ FindStringSubmatch perfDataValueAndUoMFieldsRegex (lit "U") = None
  /\ existsb (inClass valueClass) (lit "U") = false.
Proof. repeat split; vm_compute; reflexivity. Qed.

(** C2, as the code has it: [strings.Fields] cuts the batch at the space
    inside the quoted label, the first piece has no [=], and the whole
    batch is refused.  With an underscore in place of the space the same
    text parses to the record the claim describes. *)
Theorem quoted_label_with_space_is_refused :
  Fields (Trim (lit "'response time'=120ms;200;500;;") [dquote]) =
    [lit "'response"; lit "time'=120ms;200;500;;"]
  /\ ParsePerfData (lit "'response time'=120ms;200;500;;") =
     Err (Errorf "failed to extract label and raw value: %w" []
            (Errorf "failed to obtain metric label and raw value from field %q: %w"
                    [OpString (lit "'response")]
                    ErrInvalidPerformanceDataFormat))
  /\ ParsePerfData (lit "'response_time'=120ms;200;500;;") =
     Ok [ {| Label := lit "response_time"; Value := lit "120";
             UnitOfMeasurement := lit "ms"; Warn := lit "200";
             Crit := lit "500"; Min := []; Max := [] |} ].
Proof. repeat split; vm_compute; reflexivity. Qed.

(** ** The Warn and Crit validators *)

(** C4: the Warn validator, and the Crit validator in the same way, accept
    the empty string and every string that holds a rune of [[0-9~@:]]
    somewhere, whatever else it holds; what they refuse are the strings
    that are not empty after trimming and hold no such rune, and the
    error then wraps the root sentinel. *)
Theorem warn_crit_need_one_threshold_rune :
  (validatePerfDataWarnField [] = None /\ validatePerfDataCritField [] = None)
  /\ (forall s, existsb (inClass thresholdClass) s = true ->
                validatePerfDataWarnField s = None
                /\ validatePerfDataCritField s = None)
  /\ (forall s, TrimSpace s <> [] ->
                existsb (inClass thresholdClass) s = false ->
                (exists e, validatePerfDataWarnField s = Some e
                           /\ Is e ErrInvalidPerformanceDataFormat = true)
                /\ (exists e, validatePerfDataCritField s = Some e
                              /\ Is e ErrInvalidPerformanceDataFormat = true))
  /\ (forall s, validatePerfDataWarnField s <> None
                \/ validatePerfDataCritField s <> None ->
                TrimSpace s <> []
                /\ existsb (inClass thresholdClass) s = false).
Proof.
  split; [split; reflexivity|].
  split; [|split].
  - intros s H.
    rewrite validatePerfDataWarnField_spec, validatePerfDataCritField_spec, H.
    rewrite orb_true_r. split; reflexivity.
  - intros s Hne Hno.
    rewrite validatePerfDataWarnField_spec, validatePerfDataCritField_spec, Hno.
    apply isEmpty_false in Hne. rewrite Hne. simpl.
    split; eexists; split; reflexivity.
  - intros s H.
    rewrite validatePerfDataWarnField_spec, validatePerfDataCritField_spec in H.
    destruct (isEmpty (TrimSpace s)) eqn:E; simpl in H; [tauto|].
    destruct (existsb (inClass thresholdClass) s); [tauto|].
    split; [now apply isEmpty_false | reflexivity].
Qed.

Lemma warn_crit_need_one_threshold_rune_witness :
  (validatePerfDataWarnField (lit "10:x y!") = None
   /\ validatePerfDataCritField (lit "10:x y!") = None)
  /\ (exists e, validatePerfDataWarnField (lit "high") = Some e
                /\ Is e ErrInvalidPerformanceDataFormat = true).
Proof.
  split.
  - apply (proj1 (proj2 warn_crit_need_one_threshold_rune) (lit "10:x y!")).
    reflexivity.
  - apply (proj1 (proj2 (proj2 warn_crit_need_one_threshold_rune)) (lit "high")).
    + vm_compute. discriminate.
    + reflexivity.
Defined.

(** ** The Value/UoM splitter *)

Lemma valueRun_passes_value_check (s : str) :
  existsb (inClass valueClass) s = true ->
  validatePerfDataValueField (valueRun valueClass s) = None.
Proof.
  intros H. rewrite validatePerfDataValueField_spec.
  assert (Hne := valueRun_nonempty valueClass s H).
  assert (Hall : forallb (inClass valueClass) (valueRun valueClass s) = true)
    by apply takeWhile_all.
  destruct (valueRun valueClass s) as [|r v]; [congruence|].
  simpl in Hall. apply andb_true_iff in Hall as [Hr _].
  simpl. now rewrite Hr.
Qed.

Lemma uom_check_passes (u : str) :
  forallb (inClass uomClass) u = true -> validatePerfDataUoMField u = None.
Proof.
  intros H. unfold validatePerfDataUoMField.
  destruct (isEmpty (TrimSpace u)); [reflexivity|].
  unfold ContainsAny, TrimSpace. rewrite existsb_false_TrimFunc; [reflexivity|].
  apply forallb_existsb_false with (f := inClass uomClass); [|exact H].
  exact uom_allowed.
Qed.

Lemma extractValueAndUoM_spec (input : str) :
  input <> [] -> input <> lit "U" ->
  extractValueAndUoM input =
  if existsb (inClass valueClass) input
  then Ok (valueRun valueClass input, uomRun valueClass uomClass input)
  else Err (Errorf
              "failed to extract Value and UoM fields from input string %q: %w"
              [OpString input] ErrInvalidPerformanceDataFormat).
Proof.
  intros Hne HU. unfold extractValueAndUoM.
  apply isEmpty_false in Hne. rewrite Hne.
  destruct (str_eqb input (lit "U")) eqn:E; [apply str_eqb_eq in E; congruence|].
  unfold perfDataValueAndUoMFieldsRegex.
  rewrite FindStringSubmatch_valueAndUoM.
  destruct (existsb (inClass valueClass) input) eqn:V; [|reflexivity].
  unfold checkValueAndUoM. simpl SubexpIndex. cbv iota. simpl nth.
  rewrite (valueRun_passes_value_check input V).
  rewrite uom_check_passes by apply takeWhile_all.
  reflexivity.
Qed.

(** C6, as stated, fails: the pattern has no anchor, so the Value of an
    input that starts outside [[-0-9.]] is taken from the middle of the
    string, and a unit followed by a digit is not a trailing run. *)
Lemma value_taken_from_the_middle :
  lit "abc12ms" <> [] /\ lit "abc12ms" <> lit "U"
  /\ inClass valueClass (hd 0 (lit "abc12ms")) = false
  /\ takeWhile (inClass valueClass) (lit "abc12ms") = []
  /\ extractValueAndUoM (lit "abc12ms") = Ok (lit "12", lit "ms")
  /\ extractValueAndUoM (lit "12ms3") = Ok (lit "12", lit "ms").
Proof. repeat split; try (vm_compute; reflexivity); vm_compute; discriminate. Qed.

(** C6, amended: for a value half that is neither empty nor [U], the
    splitter searches without an anchor.  Value is the first maximal run
    of [[-0-9.]] found anywhere in the input and UoM the maximal run of
    runes other than digits, [;] and the two quotes that follows it at
    once; what precedes the Value run and what follows the UoM run is
    dropped.  The splitter fails, with an error that wraps the root
    sentinel, exactly when the pattern finds no match, which is when the
    input has no rune of [[-0-9.]].  Value is the leading run of the input
    when the input starts with a rune of the class. *)
Theorem value_and_uom_leftmost_runs (input : str) :
  input <> [] -> input <> lit "U" ->
  (FindStringSubmatch perfDataValueAndUoMFieldsRegex input = None
   <-> existsb (inClass valueClass) input = false)
  /\ (FindStringSubmatch perfDataValueAndUoMFieldsRegex input = None
      <-> fails (extractValueAndUoM input))
  /\ (existsb (inClass valueClass) input = true ->
      exists value uom pre rest,
        extractValueAndUoM input = Ok (value, uom)
        /\ input = pre ++ value ++ uom ++ rest
        /\ existsb (inClass valueClass) pre = false
        /\ value <> []
        /\ forallb (inClass valueClass) value = true
        /\ forallb (inClass uomClass) uom = true
        /\ match uom ++ rest with
           | [] => True
           | r :: _ => inClass valueClass r = false
           end
        /\ match rest with
           | [] => True
           | r :: _ => inClass uomClass r = false
           end
        /\ (inClass valueClass (hd 0 input) = true -> pre = []))
  /\ (existsb (inClass valueClass) input = false ->
      forall value uom, extractValueAndUoM input <> Ok (value, uom)).
Proof.
  intros Hne HU.
  assert (Hspec := extractValueAndUoM_spec input Hne HU).
  assert (Hfind :
    FindStringSubmatch perfDataValueAndUoMFieldsRegex input = None
    <-> existsb (inClass valueClass) input = false).
  { unfold perfDataValueAndUoMFieldsRegex.
    rewrite FindStringSubmatch_valueAndUoM.
    destruct (existsb (inClass valueClass) input); split; congruence. }
  split; [exact Hfind|]. split; [|split].
  - rewrite Hfind, Hspec.
    destruct (existsb (inClass valueClass) input); split; intros H.
    + discriminate.
    + destruct H as (e & He & _). discriminate.
    + eexists; split; reflexivity.
    + reflexivity.
  - intros V. rewrite Hspec, V.
    destruct (valueAndUoM_layout valueClass uomClass input)
      as (pre & rest & E & Hpre & Hv & Hu & Hstop & Hrest).
    exists (valueRun valueClass input), (uomRun valueClass uomClass input), pre, rest.
    repeat split; try assumption.
    + now apply valueRun_nonempty.
    + intros Hhd. destruct pre as [|p pre]; [reflexivity|].
      rewrite E in Hhd. simpl in Hhd, Hpre. rewrite Hhd in Hpre. discriminate.
  - intros V value uom. rewrite Hspec, V. discriminate.
Qed.

Lemma value_and_uom_leftmost_runs_witness :
  exists value uom pre rest,
    extractValueAndUoM (lit "abc-1.5ms3") = Ok (value, uom)
    /\ lit "abc-1.5ms3" = pre ++ value ++ uom ++ rest
    /\ existsb (inClass valueClass) pre = false
    /\ value <> []
    /\ forallb (inClass valueClass) value = true
    /\ forallb (inClass uomClass) uom = true
    /\ match uom ++ rest with
       | [] => True
       | r :: _ => inClass valueClass r = false
       end
    /\ match rest with
       | [] => True
       | r :: _ => inClass uomClass r = false
       end
    /\ (inClass valueClass (hd 0 (lit "abc-1.5ms3")) = true -> pre = []).
Proof.
  apply (value_and_uom_leftmost_runs (lit "abc-1.5ms3")).
  - vm_compute. discriminate.
  - vm_compute. discriminate.
  - vm_compute. reflexivity.
Defined.

(** ** The tokenizer *)

Lemma Cut_app (a b : str) (sep : rune) :
  existsb (N.eqb sep) a = false -> Cut (a ++ sep :: b) sep = Some (a, b).
Proof.
  induction a as [|r a IH]; simpl.
  - now rewrite N.eqb_refl.
  - intros H. apply orb_false_iff in H as [H1 H2].
    now rewrite H1, (IH H2).
Qed.

Lemma Cut_Some (s before after : str) (sep : rune) :
  Cut s sep = Some (before, after) ->
  s = before ++ sep :: after /\ existsb (N.eqb sep) before = false.
Proof.
  revert before after. induction s as [|r s IH]; simpl; [discriminate|].
  intros before after. destruct (sep =? r) eqn:E.
  - intros H. inversion H; subst. apply N.eqb_eq in E. subst. now split.
  - destruct (Cut s sep) as [[b a]|]; [|discriminate].
    intros H. inversion H; subst. destruct (IH b after eq_refl) as [-> Hb].
    split; [reflexivity|]. simpl. now rewrite E, Hb.
Qed.


Lemma SplitN_2 (s : str) (sep : rune) :
  SplitN s sep 2 =
  match Cut s sep with
  | Some (before, after) => [before; after]
  | None => [s]
  end.
Proof. simpl. destruct (Cut s sep) as [[b a]|]; reflexivity. Qed.

(** What the tokenizer does with field 0, by the place of the first [=]. *)
Lemma extractLabelAndRawValue_cut (input before after : str) :
  Cut input (chr "=") = Some (before, after) ->
  extractLabelAndRawValue input =
  let label := TrimSpace (Trim before [squote]) in
  match validatePerfDataLabelField label with
  | Some err =>
      Err (Errorf "failed to extract Label field from input string %q: %w"
                  [OpString input] err)
  | None =>
      if isEmpty (TrimSpace after) then
        Err (Errorf "metric value is not present in input string %q: %w"
                    [OpString input] ErrInvalidPerformanceDataFormat)
      else Ok (label, TrimSpace after)
  end.
Proof.
  intros H. unfold extractLabelAndRawValue. cbv zeta. rewrite SplitN_2, H.
  destruct input as [|r input]; [discriminate|]. reflexivity.
Qed.

Lemma extractLabelAndRawValue_no_equals (input : str) :
  Cut input (chr "=") = None -> fails (extractLabelAndRawValue input).
Proof.
  intros H. unfold extractLabelAndRawValue.
  destruct input as [|r input]; simpl isEmpty; cbv iota.
  - eexists; split; reflexivity.
  - rewrite SplitN_2, H. simpl. eexists; split; reflexivity.
Qed.

(** C5, as stated, fails: two layers of single quotes around a label are
    both removed; one layer left in place would be the label ['foo'],
    which the label rule refuses. *)
Lemma two_quote_layers_are_both_stripped :
  Trim (lit "''foo''") [squote] = lit "foo"
  /\ extractLabelAndRawValue (lit "''foo''=1") = Ok (lit "foo", lit "1")
  /\ lit "foo" <> lit "'foo'".
Proof. repeat split; try (vm_compute; reflexivity). vm_compute; discriminate. Qed.

(** C5, amended: from the label half of field 0 the tokenizer strips every
    leading and every trailing single quote, however many layers there are,
    and then the white space around what is left, so a label wrapped in two
    layers of single quotes keeps none; the value half is trimmed of white
    space; and the metric is refused, with an error that wraps the root
    sentinel, when the value half is empty after that. *)
Theorem label_quotes_all_stripped_and_empty_value_refused :
  (forall (n m : nat) (ws1 ws2 ws3 ws4 label value : str),
      forallb isSpace ws1 = true -> forallb isSpace ws2 = true ->
      forallb isSpace ws3 = true -> forallb isSpace ws4 = true ->
      label <> [] -> TrimSpace label = label ->
      ContainsAny label perfDataLabelFieldDisallowedCharacters = false ->
      value <> [] -> TrimSpace value = value ->
      extractLabelAndRawValue
        ((repeat squote n ++ (ws1 ++ label ++ ws2) ++ repeat squote m)
           ++ chr "=" :: ws3 ++ value ++ ws4)
      = Ok (label, value))
  /\ (forall input before after : str,
         Cut input (chr "=") = Some (before, after) ->
         TrimSpace after = [] ->
         fails (extractLabelAndRawValue input)).
Proof.
  split.
  - intros n m ws1 ws2 ws3 ws4 label value H1 H2 H3 H4 Hl Htl Hdis Hv Htv.
    assert (Hq : existsb (ContainsRune [squote]) label = false).
    { revert Hdis. unfold ContainsAny. apply existsb_ext_false.
      intros r. rune_solve. }
    assert (He : existsb (N.eqb (chr "=")) label = false).
    { revert Hdis. unfold ContainsAny. apply existsb_ext_false.
      intros r. rune_solve. }
    assert (Hrep : forall k, forallb (ContainsRune [squote]) (repeat squote k) = true).
    { induction k; simpl; [reflexivity | exact IHk]. }
    assert (Hrep' : forall k, existsb (N.eqb (chr "=")) (repeat squote k) = false).
    { induction k; simpl; [reflexivity | exact IHk]. }
    assert (Wq : forall ws, forallb isSpace ws = true ->
                            existsb (ContainsRune [squote]) ws = false).
    { intros ws. apply forallb_existsb_false. exact space_not_squote. }
    assert (We : forall ws, forallb isSpace ws = true ->
                            existsb (N.eqb (chr "=")) ws = false).
    { intros ws. apply forallb_existsb_false. exact space_not_equals. }
    rewrite (extractLabelAndRawValue_cut _
               (repeat squote n ++ (ws1 ++ label ++ ws2) ++ repeat squote m)
               (ws3 ++ value ++ ws4)).
    + unfold Trim. rewrite TrimFunc_layers.
      2: apply Hrep. 2: apply Hrep.
      2:{ repeat (apply existsb_false_app; split); auto. }
      cbv zeta. unfold TrimSpace at 1 2 3 4.
      rewrite !TrimFunc_pad by assumption.
      fold (TrimSpace label). fold (TrimSpace value). rewrite Htl, Htv.
      unfold validatePerfDataLabelField. cbv zeta. rewrite Htl, Hdis.
      apply isEmpty_false in Hl. rewrite Hl. simpl.
      apply isEmpty_false in Hv. now rewrite Hv.
    + apply Cut_app.
      repeat (apply existsb_false_app; split); auto.
  - intros input before after Hcut Hempty.
    rewrite (extractLabelAndRawValue_cut _ _ _ Hcut). cbv zeta.
    destruct (validatePerfDataLabelField (TrimSpace (Trim before [squote])))
      as [err|] eqn:E.
    + eexists; split; [reflexivity|]. simpl.
      now rewrite (proj1 validator_errors_wrap _ _ E).
    + rewrite Hempty. simpl. eexists; split; reflexivity.
Qed.

Lemma label_quotes_all_stripped_and_empty_value_refused_witness :
  extractLabelAndRawValue
    ((repeat squote 2 ++ (lit " " ++ lit "response time" ++ lit "  ")
        ++ repeat squote 3)
       ++ chr "=" :: lit " " ++ lit "120ms" ++ lit " ")
  = Ok (lit "response time", lit "120ms")
  /\ fails (extractLabelAndRawValue (lit "load1= ")).
Proof.
  split.
  - apply (proj1 label_quotes_all_stripped_and_empty_value_refused
             2%nat 3%nat (lit " ") (lit "  ") (lit " ") (lit " ")
             (lit "response time") (lit "120ms"));
      solve [vm_compute; reflexivity | vm_compute; discriminate].
  - apply (proj2 label_quotes_all_stripped_and_empty_value_refused
             (lit "load1= ") (lit "load1") (lit " "));
      vm_compute; reflexivity.
Defined.

(** ** Pieces of a split *)

Section SplitFacts.
Variable f : rune -> bool.

Lemma splitFunc_not_nil (s : str) : splitFunc f s <> [].
Proof.
  destruct s as [|r s]; simpl; [discriminate|].
  destruct (f r); [discriminate|].
  destruct (splitFunc f s); discriminate.
Qed.

Lemma splitFunc_none (s : str) : existsb f s = false -> splitFunc f s = [s].
Proof.
  induction s as [|r s IH]; simpl; [reflexivity|].
  intros H. apply orb_false_iff in H as [H1 H2].
  now rewrite H1, (IH H2).
Qed.

Lemma splitFunc_app (a b : str) (sep : rune) :
  f sep = true -> existsb f a = false ->
  splitFunc f (a ++ sep :: b) = a :: splitFunc f b.
Proof.
  intros Hsep. induction a as [|r a IH]; simpl.
  - now rewrite Hsep.
  - intros H. apply orb_false_iff in H as [H1 H2].
    now rewrite H1, (IH H2).
Qed.

(** No piece holds a separator, and a piece holds no rune of a kind
    that the whole string does not hold. *)
Lemma splitFunc_piece_clean (s piece : str) :
  In piece (splitFunc f s) -> existsb f piece = false.
Proof.
  revert piece. induction s as [|r s IH]; simpl; intros piece H.
  - destruct H as [<-|[]]. reflexivity.
  - destruct (f r) eqn:E.
    + destruct H as [<-|H]; [reflexivity | now apply IH].
    + destruct (splitFunc f s) as [|p ps] eqn:S.
      * destruct H as [<-|[]]. simpl. now rewrite E.
      * destruct H as [<-|H].
        -- simpl. rewrite E. apply IH. now left.
        -- apply IH. now right.
Qed.

Lemma splitFunc_piece_sub (g : rune -> bool) (s piece : str) :
  existsb g s = false -> In piece (splitFunc f s) -> existsb g piece = false.
Proof.
  revert piece. induction s as [|r s IH]; simpl; intros piece Hg H.
  - destruct H as [<-|[]]. reflexivity.
  - apply orb_false_iff in Hg as [G1 G2]. destruct (f r).
    + destruct H as [<-|H]; [reflexivity | now apply IH].
    + destruct (splitFunc f s) as [|p ps] eqn:S.
      * destruct H as [<-|[]]. simpl. now rewrite G1.
      * destruct H as [<-|H].
        -- simpl. rewrite G1. apply IH; [exact G2 | now left].
        -- apply IH; [exact G2 | now right].
Qed.

(** A rune found in some piece is a rune of the string. *)
Lemma splitFunc_piece_has (g : rune -> bool) (s piece : str) :
  In piece (splitFunc f s) -> existsb g piece = true -> existsb g s = true.
Proof.
  intros Hin Hp. destruct (existsb g s) eqn:E; [reflexivity|].
  rewrite (splitFunc_piece_sub g s piece E Hin) in Hp. discriminate.
Qed.

(** The first piece and the string behind it. *)
Lemma splitFunc_first (s p : str) (ps : list str) :
  splitFunc f s = p :: ps -> ps <> [] ->
  exists sep t, s = p ++ sep :: t /\ f sep = true /\ splitFunc f t = ps.
Proof.
  revert p ps. induction s as [|r s IH]; simpl; intros p ps H Hps.
  - inversion H; subst. now elim Hps.
  - destruct (f r) eqn:E.
    + inversion H; subst. exists r, s. now repeat split.
    + destruct (splitFunc f s) as [|q qs] eqn:S.
      * inversion H; subst. now elim Hps.
      * inversion H; subst.
        destruct (IH q ps eq_refl Hps) as (sep & t & Es & Hsep & Ht).
        subst s. exists sep, t. now repeat split.
Qed.
End SplitFacts.

Lemma nth_clean (g : rune -> bool) (l : list str) (i : nat) :
  (forall piece, In piece l -> existsb g piece = false) ->
  existsb g (nth i l []) = false.
Proof.
  intros H. destruct (nth_in_or_default i l []) as [Hin | ->].
  - now apply H.
  - reflexivity.
Qed.

Lemma Fields_token (s m : str) :
  In m (Fields s) -> existsb isSpace m = false /\ m <> [].
Proof.
  unfold Fields. intros H. apply filter_In in H as [Hin Hne].
  split.
  - now apply splitFunc_piece_clean with (s := s).
  - apply isEmpty_false. now apply negb_true_iff.
Qed.

(** ** Errors of the parser all wrap the root sentinel *)

Lemma extractLabelAndRawValue_error (input : str) (e : error) :
  extractLabelAndRawValue input = Err e ->
  Is e ErrInvalidPerformanceDataFormat = true.
Proof.
  destruct (Cut input (chr "=")) as [[before after]|] eqn:C.
  - rewrite (extractLabelAndRawValue_cut _ _ _ C). cbv zeta.
    destruct (validatePerfDataLabelField _) as [err|] eqn:V.
    + intros H. inversion H. simpl.
      now rewrite (proj1 validator_errors_wrap _ _ V).
    + destruct (isEmpty (TrimSpace after)); intros H; inversion H. reflexivity.
  - intros H. destruct (extractLabelAndRawValue_no_equals _ C) as (e' & E & He).
    congruence.
Qed.

Lemma checkValueAndUoM_error (re : regex) (input : str) (matches : list str)
      (e : error) :
  checkValueAndUoM re input matches = Err e ->
  Is e ErrInvalidPerformanceDataFormat = true.
Proof.
  unfold checkValueAndUoM.
  destruct (SubexpIndex re perfDataValueFieldSubexpName <? 0)%Z.
  { intros H. inversion H. reflexivity. }
  destruct (validatePerfDataValueField _) as [err|] eqn:V.
  { intros H. inversion H. simpl.
    now rewrite (proj1 (proj2 validator_errors_wrap) _ _ V). }
  destruct (0 <=? SubexpIndex re perfDataUoMFieldSubexpName)%Z; [|discriminate].
  destruct (validatePerfDataUoMField _) as [err|] eqn:U; [|discriminate].
  intros H. inversion H. simpl.
  now rewrite (proj1 (proj2 (proj2 validator_errors_wrap)) _ _ U).
Qed.

Lemma extractValueAndUoM_error (input : str) (e : error) :
  extractValueAndUoM input = Err e ->
  Is e ErrInvalidPerformanceDataFormat = true.
Proof.
  unfold extractValueAndUoM.
  destruct (isEmpty input). { intros H. inversion H. reflexivity. }
  destruct (str_eqb input (lit "U")); [discriminate|].
  destruct (FindStringSubmatch _ input) as [matches|].
  - apply checkValueAndUoM_error.
  - intros H. inversion H. reflexivity.
Qed.

Lemma parsePerfData_error (perfdataString : str) (e : error) :
  parsePerfData perfdataString = Err e ->
  Is e ErrInvalidPerformanceDataFormat = true.
Proof.
  unfold parsePerfData. cbv zeta.
  destruct (_ <? perfDataMinSemicolonSeparatedFields)%Z.
  { intros H. inversion H. reflexivity. }
  destruct (perfDataMaxSemicolonSeparatedFields <? _)%Z.
  { intros H. inversion H. reflexivity. }
  destruct (extractLabelAndRawValue _) as [[label rawValue]|err] eqn:EL.
  2:{ intros H. inversion H. simpl. now rewrite (extractLabelAndRawValue_error _ _ EL). }
  destruct (extractValueAndUoM rawValue) as [[value uom]|err] eqn:EV.
  2:{ intros H. inversion H. simpl. now rewrite (extractValueAndUoM_error _ _ EV). }
  destruct (extractRawWarnCritMinMaxRawFieldVals _) as [[[rawWarn rawCrit] rawMin] rawMax].
  unfold parsePerfDataWarnField, parsePerfDataCritField, parsePerfDataMinField,
    parsePerfDataMaxField. cbv zeta.
  destruct validator_errors_wrap as (_ & _ & _ & HW & HC & HMi & HMa).
  destruct (validatePerfDataWarnField _) as [err|] eqn:W.
  { intros H. inversion H. simpl. now rewrite (HW _ _ W). }
  destruct (validatePerfDataCritField _) as [err|] eqn:C.
  { intros H. inversion H. simpl. now rewrite (HC _ _ C). }
  destruct (validatePerfDataMinField _) as [err|] eqn:Mi.
  { intros H. inversion H. simpl. now rewrite (HMi _ _ Mi). }
  destruct (validatePerfDataMaxField _) as [err|] eqn:Ma.
  { intros H. inversion H. simpl. now rewrite (HMa _ _ Ma). }
  discriminate.
Qed.

(** ** The loop over the metrics of a batch *)

Lemma parseEach_error (l : list str) (acc : list PerformanceData) (e : error) :
  parseEach l acc = Err e -> Is e ErrInvalidPerformanceDataFormat = true.
Proof.
  revert acc. induction l as [|m l IH]; simpl; intros acc; [discriminate|].
  destruct (parsePerfData m) as [pd|err] eqn:P.
  - apply IH.
  - intros H. inversion H; subst. now apply parsePerfData_error in P.
Qed.


Lemma parseEach_Ok (l : list str) (acc recs : list PerformanceData) :
  parseEach l acc = Ok recs ->
  exists pds, recs = acc ++ pds /\ Forall2 (fun m pd => parsePerfData m = Ok pd) l pds.
Proof.
  revert acc. induction l as [|m l IH]; simpl; intros acc H.
  - inversion H; subst. exists []. now rewrite app_nil_r.
  - destruct (parsePerfData m) as [pd|err] eqn:P; [|discriminate].
    destruct (IH _ H) as (pds & Er & F). subst recs.
    exists (pd :: pds). rewrite <- app_assoc. split; [reflexivity|].
    now constructor.
Qed.


Lemma ParsePerfData_Ok (raw : str) (recs : list PerformanceData) (pd : PerformanceData) :
  ParsePerfData raw = Ok recs -> In pd recs ->
  exists m, In m (metrics raw) /\ parsePerfData m = Ok pd.
Proof.
  unfold ParsePerfData. destruct (isEmpty (TrimSpace raw)); [discriminate|].
  intros H Hin. apply parseEach_Ok in H as (pds & Er & F). subst recs.
  simpl in Hin.
  fold (metrics raw) in F. induction F as [|m pd' l pds' P F IH]; [destruct Hin|].
  destruct Hin as [<-|Hin].
  - exists m. split; [now left | exact P].
  - destruct (IH Hin) as (m' & Hm' & P'). exists m'. split; [now right | exact P'].
Qed.

(** ** What a parsed metric looks like *)

Lemma nth_guarded (l : list str) (i : nat) :
  (if (S i <=? length l)%nat then nth i l [] else []) = nth i l [].
Proof.
  destruct (S i <=? length l)%nat eqn:E; [reflexivity|].
  apply Nat.leb_gt in E. symmetry. apply nth_overflow. lia.
Qed.

Lemma extractRawWarnCritMinMaxRawFieldVals_nth (fields : list str) :
  extractRawWarnCritMinMaxRawFieldVals fields =
  (nth 1 fields [], nth 2 fields [], nth 3 fields [], nth 4 fields []).
Proof.
  unfold extractRawWarnCritMinMaxRawFieldVals. cbv zeta.
  now rewrite (nth_guarded fields 1), (nth_guarded fields 2),
    (nth_guarded fields 3), (nth_guarded fields 4).
Qed.

Lemma parsePerfData_Ok_inv (m : str) (pd : PerformanceData) :
  parsePerfData m = Ok pd ->
  (length (Split m (chr ";")) <= 5)%nat
  /\ exists before after,
      Cut (nth 0 (Split m (chr ";")) []) (chr "=") = Some (before, after)
      /\ Label pd = TrimSpace (Trim before [squote])
      /\ validatePerfDataLabelField (Label pd) = None
      /\ TrimSpace after <> []
      /\ extractValueAndUoM (TrimSpace after) = Ok (Value pd, UnitOfMeasurement pd)
      /\ (Warn pd = TrimSpace (nth 1 (Split m (chr ";")) [])
          /\ validatePerfDataWarnField (Warn pd) = None)
      /\ (Crit pd = TrimSpace (nth 2 (Split m (chr ";")) [])
          /\ validatePerfDataCritField (Crit pd) = None)
      /\ (Min pd = TrimSpace (nth 3 (Split m (chr ";")) [])
          /\ validatePerfDataMinField (Min pd) = None)
      /\ (Max pd = TrimSpace (nth 4 (Split m (chr ";")) [])
          /\ validatePerfDataMaxField (Max pd) = None).
Proof.
  unfold parsePerfData. cbv zeta.
  destruct (_ <? perfDataMinSemicolonSeparatedFields)%Z; [discriminate|].
  destruct (perfDataMaxSemicolonSeparatedFields <? _)%Z eqn:Hmax; [discriminate|].
  apply Z.ltb_ge in Hmax. unfold perfDataMaxSemicolonSeparatedFields in Hmax.
  assert (Hlen : (length (Split m (chr ";")) <= 5)%nat) by lia.
  destruct (Cut (nth 0 (Split m (chr ";")) []) (chr "=")) as [[before after]|] eqn:C.
  2:{ destruct (extractLabelAndRawValue_no_equals _ C) as (e & -> & _).
      discriminate. }
  rewrite (extractLabelAndRawValue_cut _ _ _ C). cbv zeta.
  destruct (validatePerfDataLabelField _) as [err|] eqn:VL; [discriminate|].
  destruct (isEmpty (TrimSpace after)) eqn:EA; [discriminate|].
  destruct (extractValueAndUoM (TrimSpace after)) as [[value uom]|err] eqn:EV;
    [|discriminate].
  rewrite extractRawWarnCritMinMaxRawFieldVals_nth.
  unfold parsePerfDataWarnField, parsePerfDataCritField, parsePerfDataMinField,
    parsePerfDataMaxField. cbv zeta.
  destruct (validatePerfDataWarnField _) as [err|] eqn:W; [discriminate|].
  destruct (validatePerfDataCritField _) as [err|] eqn:Cr; [discriminate|].
  destruct (validatePerfDataMinField _) as [err|] eqn:Mi; [discriminate|].
  destruct (validatePerfDataMaxField _) as [err|] eqn:Ma; [discriminate|].
  intros H. inversion H; subst; clear H. simpl.
  split; [exact Hlen|]. exists before, after.
  apply isEmpty_false in EA. repeat split; assumption.
Qed.

Lemma extractValueAndUoM_value_nonempty (input value uom : str) :
  extractValueAndUoM input = Ok (value, uom) -> value <> [].
Proof.
  intros H.
  destruct input as [|r input]; [discriminate|].
  destruct (list_eq_dec N.eq_dec (r :: input) (lit "U")) as [E|E].
  - rewrite E in H. vm_compute in H. inversion H. discriminate.
  - rewrite extractValueAndUoM_spec in H by (congruence || exact E).
    destruct (existsb (inClass valueClass) (r :: input)) eqn:V; [|discriminate].
    inversion H. now apply valueRun_nonempty.
Qed.

Lemma validatePerfDataLabelField_None (label : str) :
  validatePerfDataLabelField label = None ->
  TrimSpace label <> []
  /\ ContainsAny (TrimSpace label) perfDataLabelFieldDisallowedCharacters = false.
Proof.
  unfold validatePerfDataLabelField. cbv zeta.
  destruct (isEmpty (TrimSpace label)) eqn:E; simpl; [discriminate|].
  destruct (ContainsAny _ _); simpl; [discriminate|].
  intros _. split; [now apply isEmpty_false | reflexivity].
Qed.

Lemma TrimFunc_nonempty (s : str) (f : rune -> bool) : TrimFunc s f <> [] -> s <> [].
Proof. intros H E. subst. now apply H. Qed.

Lemma parsePerfData_label_value_nonempty (m : str) (pd : PerformanceData) :
  parsePerfData m = Ok pd -> Label pd <> [] /\ Value pd <> [].
Proof.
  intros H. apply parsePerfData_Ok_inv in H
    as (_ & before & after & _ & _ & VL & _ & EV & _).
  split.
  - apply validatePerfDataLabelField_None in VL as [VL _].
    now apply TrimFunc_nonempty in VL.
  - now apply extractValueAndUoM_value_nonempty in EV.
Qed.

(** C10: every record of a successful parse has a Label and a Value that
    are not empty, so [Validate] returns no error on it. *)
Theorem parsed_records_pass_Validate (raw : str) (recs : list PerformanceData) :
  ParsePerfData raw = Ok recs ->
  Forall (fun pd => Label pd <> [] /\ Value pd <> [] /\ Validate pd = None) recs.
Proof.
  intros H. apply Forall_forall. intros pd Hin.
  destruct (ParsePerfData_Ok raw recs pd H Hin) as (m & _ & P).
  apply parsePerfData_label_value_nonempty in P as [HL HV].
  repeat split; try assumption.
  unfold Validate. apply isEmpty_false in HL, HV. now rewrite HL, HV.
Qed.

Lemma parsed_records_pass_Validate_witness :
  Forall (fun pd => Label pd <> [] /\ Value pd <> [] /\ Validate pd = None)
    [ {| Label := lit "load1"; Value := lit "0.26"; UnitOfMeasurement := [];
         Warn := lit "5"; Crit := lit "10"; Min := lit "0"; Max := [] |};
      {| Label := lit "users"; Value := lit "U"; UnitOfMeasurement := [];
         Warn := []; Crit := []; Min := []; Max := [] |} ].
Proof.
  apply (parsed_records_pass_Validate (lit "load1=0.26;5;10;0; users=U")).
  vm_compute. reflexivity.
Defined.

(** ** Rejected inputs *)





(** The unit captured by the program's own pattern never holds a digit:
    the capture stops in front of it. *)
Lemma uom_capture_has_no_digit (input : str) (matches : list str) :
  FindStringSubmatch perfDataValueAndUoMFieldsRegex input = Some matches ->
  existsb isDigit (nth 2 matches []) = false.
Proof.
  unfold perfDataValueAndUoMFieldsRegex. rewrite FindStringSubmatch_valueAndUoM.
  destruct (existsb (inClass valueClass) input); [|discriminate].
  intros H. inversion H; subst; clear H. simpl nth.
  apply forallb_existsb_false with (f := inClass uomClass).
  - intros r Hr. destruct (isDigit r) eqn:D; [|reflexivity].
    apply digit_not_in_uomClass in D. congruence.
  - apply takeWhile_all.
Qed.

(** So a digit behind the unit is dropped with the rest of the text, and
    the metric is accepted. *)
Lemma digit_behind_unit_is_dropped :
  ParsePerfData (lit "a=1m2") =
  Ok [ {| Label := lit "a"; Value := lit "1"; UnitOfMeasurement := lit "m";
          Warn := []; Crit := []; Min := []; Max := [] |} ].
Proof. vm_compute. reflexivity. Qed.





(** ** The shape of a parsed record *)

Lemma extractValueAndUoM_Ok_inv (input value uom : str) :
  extractValueAndUoM input = Ok (value, uom) ->
  (exists pre rest, input = pre ++ value ++ uom ++ rest)
  /\ ((value = lit "U" /\ uom = [])
      \/ (value <> []
          /\ forallb (inClass valueClass) value = true
          /\ forallb (inClass uomClass) uom = true
          /\ match uom with [] => True | r :: _ => inClass valueClass r = false end)).
Proof.
  intros H.
  destruct input as [|r input]; [discriminate|].
  destruct (list_eq_dec N.eq_dec (r :: input) (lit "U")) as [E|E].
  - rewrite E in H. vm_compute in H. inversion H. split.
    + exists [], []. rewrite E. reflexivity.
    + left. split; reflexivity.
  - rewrite extractValueAndUoM_spec in H by (congruence || exact E).
    destruct (existsb (inClass valueClass) (r :: input)) eqn:V; [|discriminate].
    inversion H; subst; clear H.
    destruct (valueAndUoM_layout valueClass uomClass (r :: input))
      as (pre & rest & El & _ & Hv & Hu & Hstop & _).
    split; [exists pre, rest; exact El|]. right.
    split; [now apply valueRun_nonempty|].
    split; [exact Hv|]. split; [exact Hu|].
    destruct (uomRun valueClass uomClass (r :: input)); [exact I | exact Hstop].
Qed.

(** The fields of a record parsed from [m] hold no rune of a kind that the
    semicolon-separated pieces of [m] do not hold. *)
Lemma parsePerfData_fields_sub (g : rune -> bool) (m : str) (pd : PerformanceData) :
  (forall piece, In piece (Split m (chr ";")) -> existsb g piece = false) ->
  parsePerfData m = Ok pd ->
  Forall (fun s => existsb g s = false) (fieldsOf pd).
Proof.
  intros Hg H.
  apply parsePerfData_Ok_inv in H
    as (_ & before & after & C & EL & _ & _ & EV & [EW _] & [EC _] & [EMi _] & [EMa _]).
  assert (Hp : forall i, existsb g (nth i (Split m (chr ";")) []) = false).
  { intros i. now apply nth_clean. }
  apply Cut_Some in C as [E0 _].
  assert (H0 := Hp 0%nat). rewrite E0 in H0.
  apply existsb_false_app in H0 as [Hb Ha]. simpl in Ha.
  apply orb_false_iff in Ha as [_ Ha].
  assert (Hraw : existsb g (TrimSpace after) = false)
    by now apply existsb_false_TrimFunc.
  assert (HVU : existsb g (Value pd) = false
                /\ existsb g (UnitOfMeasurement pd) = false).
  { apply extractValueAndUoM_Ok_inv in EV as [(pre & rest & E) _].
    rewrite E in Hraw.
    apply existsb_false_app in Hraw as [_ Hraw].
    apply existsb_false_app in Hraw as [HV Hraw].
    apply existsb_false_app in Hraw as [HU _]. now split. }
  unfold fieldsOf. rewrite EL, EW, EC, EMi, EMa.
  repeat constructor; try (apply existsb_false_TrimFunc; apply Hp); try tauto.
  now repeat apply existsb_false_TrimFunc.
Qed.

Lemma parsePerfData_shape (m : str) (pd : PerformanceData) :
  existsb isSpace m = false -> parsePerfData m = Ok pd -> parsedShape pd.
Proof.
  intros Hm H.
  assert (Hsp : Forall (fun s => existsb isSpace s = false) (fieldsOf pd)).
  { apply parsePerfData_fields_sub with (m := m); [|exact H].
    intros piece Hin.
    now apply (splitFunc_piece_sub (N.eqb (chr ";")) isSpace m). }
  assert (Hse : Forall (fun s => existsb (N.eqb (chr ";")) s = false) (fieldsOf pd)).
  { apply parsePerfData_fields_sub with (m := m); [|exact H].
    intros piece Hin. now apply splitFunc_piece_clean with (s := m). }
  apply parsePerfData_Ok_inv in H
    as (_ & before & after & C & EL & VL & _ & EV & [_ VW] & [_ VC] & [_ VMi] & [_ VMa]).
  constructor; try assumption.
  - apply validatePerfDataLabelField_None in VL.
    assert (HL : existsb isSpace (Label pd) = false).
    { unfold fieldsOf in Hsp. now inversion Hsp. }
    unfold TrimSpace in VL. rewrite (TrimFunc_none _ _ HL) in VL. exact VL.
  - now apply extractValueAndUoM_Ok_inv in EV as [_ EV].
Qed.

(** ** Rendering a record and parsing the text again *)

Lemma String_unfold (pd : PerformanceData) :
  String pd =
  chr " " :: (squote :: Label pd ++ squote :: chr "=" :: Value pd
                ++ UnitOfMeasurement pd)
    ++ chr ";" :: Warn pd ++ chr ";" :: Crit pd
    ++ chr ";" :: Min pd ++ chr ";" :: Max pd.
Proof.
  unfold String. cbn. rewrite app_nil_r.
  do 2 f_equal. rewrite <- app_assoc. simpl. do 3 f_equal.
  now rewrite <- app_assoc.
Qed.

Lemma extractValueAndUoM_rejoin (value uom : str) :
  (value = lit "U" /\ uom = [])
  \/ (value <> []
      /\ forallb (inClass valueClass) value = true
      /\ forallb (inClass uomClass) uom = true
      /\ match uom with [] => True | r :: _ => inClass valueClass r = false end) ->
  extractValueAndUoM (value ++ uom) = Ok (value, uom).
Proof.
  intros [[-> ->]|(Hne & Hv & Hu & Hstop)]; [vm_compute; reflexivity|].
  destruct value as [|r value]; [congruence|].
  assert (Hr : inClass valueClass r = true).
  { simpl in Hv. now apply andb_true_iff in Hv. }
  rewrite extractValueAndUoM_spec.
  - simpl existsb. rewrite Hr. simpl orb. cbv iota.
    unfold valueRun, uomRun, afterValue.
    simpl (dropWhile (fun r0 => negb (inClass valueClass r0)) ((r :: value) ++ uom)).
    rewrite Hr. simpl negb. cbv iota.
    change (r :: value ++ uom) with ((r :: value) ++ uom).
    rewrite (takeWhile_app_stop _ _ _ Hv Hstop).
    rewrite (dropWhile_app_stop _ _ _ Hv Hstop).
    now rewrite (takeWhile_full _ _ Hu).
  - discriminate.
  - intros E. vm_compute in E. inversion E; subst.
    apply value_not_U in Hr. now apply Hr.
Qed.

Lemma Split_five (f0 w c mi ma : str) :
  existsb (N.eqb (chr ";")) f0 = false ->
  existsb (N.eqb (chr ";")) w = false ->
  existsb (N.eqb (chr ";")) c = false ->
  existsb (N.eqb (chr ";")) mi = false ->
  existsb (N.eqb (chr ";")) ma = false ->
  Split (f0 ++ chr ";" :: w ++ chr ";" :: c ++ chr ";" :: mi ++ chr ";" :: ma)
        (chr ";")
  = [f0; w; c; mi; ma].
Proof.
  intros H0 Hw Hc Hmi Hma. unfold Split.
  rewrite !splitFunc_app by (assumption || reflexivity).
  now rewrite splitFunc_none.
Qed.

Lemma field_parses_back (validate : str -> option error) (s : str) :
  existsb isSpace s = false -> validate s = None ->
  match validate (TrimSpace s) with
  | Some err => Err err
  | None => Ok (TrimSpace s)
  end = Ok s.
Proof.
  intros Hs Hv. unfold TrimSpace. rewrite (TrimFunc_none _ _ Hs). now rewrite Hv.
Qed.

Lemma parsePerfData_rendered (pd : PerformanceData) :
  parsedShape pd ->
  parsePerfData
    ((squote :: Label pd ++ squote :: chr "=" :: Value pd ++ UnitOfMeasurement pd)
       ++ chr ";" :: Warn pd ++ chr ";" :: Crit pd
       ++ chr ";" :: Min pd ++ chr ";" :: Max pd)
  = Ok pd.
Proof.
  intros [Hsp Hse [HL HLd] HVU HW HC HMi HMa].
  destruct pd as [L V U W C Mi Ma]. unfold fieldsOf in *.
  cbn [Label Value UnitOfMeasurement Warn Crit Min Max] in *.
  inversion Hsp as [|? ? SL Hsp1]; subst. inversion Hsp1 as [|? ? SV Hsp2]; subst.
  inversion Hsp2 as [|? ? SU Hsp3]; subst. inversion Hsp3 as [|? ? SW Hsp4]; subst.
  inversion Hsp4 as [|? ? SC Hsp5]; subst. inversion Hsp5 as [|? ? SMi Hsp6]; subst.
  inversion Hsp6 as [|? ? SMa _]; subst.
  inversion Hse as [|? ? CL Hse1]; subst. inversion Hse1 as [|? ? CV Hse2]; subst.
  inversion Hse2 as [|? ? CU Hse3]; subst. inversion Hse3 as [|? ? CW Hse4]; subst.
  inversion Hse4 as [|? ? CC Hse5]; subst. inversion Hse5 as [|? ? CMi Hse6]; subst.
  inversion Hse6 as [|? ? CMa _]; subst.
  clear Hsp Hsp1 Hsp2 Hsp3 Hsp4 Hsp5 Hsp6 Hse Hse1 Hse2 Hse3 Hse4 Hse5 Hse6.
  assert (HLq : existsb (ContainsRune [squote]) L = false).
  { revert HLd. unfold ContainsAny. apply existsb_ext_false. intros r. rune_solve. }
  assert (HLe : existsb (N.eqb (chr "=")) L = false).
  { revert HLd. unfold ContainsAny. apply existsb_ext_false. intros r. rune_solve. }
  assert (HVne : V <> []).
  { destruct HVU as [[-> _]|[H _]]; [discriminate | exact H]. }
  unfold parsePerfData. cbv zeta.
  rewrite Split_five; try assumption.
  2:{ change (squote :: L ++ squote :: chr "=" :: V ++ U)
        with ([squote] ++ L ++ [squote; chr "="] ++ V ++ U).
      repeat (apply existsb_false_app; split); try assumption; reflexivity. }
  cbn [length Z.of_nat Pos.of_succ_nat Pos.succ].
  change (5 <? perfDataMinSemicolonSeparatedFields)%Z with false.
  change (perfDataMaxSemicolonSeparatedFields <? 5)%Z with false.
  cbv iota. cbn [nth].
  assert (EC : Cut (squote :: L ++ squote :: chr "=" :: V ++ U) (chr "=")
               = Some (squote :: L ++ [squote], V ++ U)).
  { assert (E : squote :: L ++ squote :: chr "=" :: V ++ U
                = (squote :: L ++ [squote]) ++ chr "=" :: V ++ U)
      by (simpl; now rewrite <- app_assoc).
    rewrite E. apply Cut_app.
    change (squote :: L ++ [squote]) with ([squote] ++ L ++ [squote]).
    repeat (apply existsb_false_app; split); try assumption; reflexivity. }
  rewrite (extractLabelAndRawValue_cut _ _ _ EC).
  cbv zeta.
  assert (ET : Trim (squote :: L ++ [squote]) [squote] = L).
  { unfold Trim. change (squote :: L ++ [squote]) with ([squote] ++ L ++ [squote]).
    now apply TrimFunc_layers. }
  rewrite ET.
  assert (TL : TrimSpace L = L) by apply (TrimFunc_none _ _ SL).
  assert (VLab : validatePerfDataLabelField L = None).
  { unfold validatePerfDataLabelField. cbv zeta. rewrite TL, HLd.
    apply isEmpty_false in HL. now rewrite HL. }
  assert (SVU : existsb isSpace (V ++ U) = false)
    by (apply existsb_false_app; now split).
  assert (TVU : TrimSpace (V ++ U) = V ++ U) by apply (TrimFunc_none _ _ SVU).
  assert (EVU : isEmpty (V ++ U) = false).
  { destruct V; [congruence | reflexivity]. }
  rewrite TL, VLab, TVU, EVU. cbv iota beta.
  rewrite (extractValueAndUoM_rejoin _ _ HVU).
  rewrite extractRawWarnCritMinMaxRawFieldVals_nth. cbn [nth].
  unfold parsePerfDataWarnField, parsePerfDataCritField, parsePerfDataMinField,
    parsePerfDataMaxField. cbv zeta.
  rewrite (field_parses_back validatePerfDataWarnField W SW HW).
  rewrite (field_parses_back validatePerfDataCritField C SC HC).
  rewrite (field_parses_back validatePerfDataMinField Mi SMi HMi).
  rewrite (field_parses_back validatePerfDataMaxField Ma SMa HMa).
  reflexivity.
Qed.

Lemma TrimSpace_leading_space (tok : str) :
  existsb isSpace tok = false -> TrimSpace (chr " " :: tok) = tok.
Proof.
  intros H. unfold TrimSpace, TrimFunc, TrimLeftFunc.
  cbn [dropWhile]. change (isSpace (chr " ")) with true. cbv iota.
  rewrite (dropWhile_none _ _ H). unfold TrimRightFunc.
  rewrite dropWhile_none by now rewrite existsb_rev.
  apply rev_involutive.
Qed.

Lemma Fields_leading_space (tok : str) :
  existsb isSpace tok = false -> tok <> [] -> Fields (chr " " :: tok) = [tok].
Proof.
  intros H Hne. unfold Fields. cbn [splitFunc].
  change (isSpace (chr " ")) with true. cbv iota.
  rewrite (splitFunc_none _ _ H). cbn [filter isEmpty negb].
  apply isEmpty_false in Hne. now rewrite Hne.
Qed.

Lemma last_app_cons (a : str) (x : rune) (b : str) (d : rune) :
  last (a ++ x :: b) d = last (x :: b) d.
Proof.
  induction a as [|r a IH]; [reflexivity|].
  change ((r :: a) ++ x :: b) with (r :: (a ++ x :: b)).
  destruct (a ++ x :: b) eqn:E; [destruct a; discriminate|].
  exact IH.
Qed.

Lemma last_default (r : rune) (l : str) (d d' : rune) :
  last (r :: l) d = last (r :: l) d'.
Proof.
  revert r. induction l as [|x l IH]; intros r; [reflexivity|]. apply (IH x).
Qed.

(** A record of the parser's shape whose Max does not end in a double
    quote is read back from its own text. *)
Lemma ParsePerfData_String (pd : PerformanceData) :
  parsedShape pd -> last (Max pd) 0 <> dquote ->
  ParsePerfData (String pd) = Ok [pd].
Proof.
  intros Hshape Hlast.
  rewrite String_unfold.
  set (tok := (squote :: Label pd ++ squote :: chr "=" :: Value pd
                 ++ UnitOfMeasurement pd)
                ++ chr ";" :: Warn pd ++ chr ";" :: Crit pd
                ++ chr ";" :: Min pd ++ chr ";" :: Max pd).
  assert (Hns : existsb isSpace tok = false).
  { destruct Hshape as [Hsp _ _ _ _ _ _ _]. unfold fieldsOf in Hsp.
    inversion Hsp as [|? ? SL Hsp1]; subst. inversion Hsp1 as [|? ? SV Hsp2]; subst.
    inversion Hsp2 as [|? ? SU Hsp3]; subst. inversion Hsp3 as [|? ? SW Hsp4]; subst.
    inversion Hsp4 as [|? ? SC Hsp5]; subst. inversion Hsp5 as [|? ? SMi Hsp6]; subst.
    inversion Hsp6 as [|? ? SMa _]; subst.
    change tok with
      (([squote] ++ Label pd ++ [squote; chr "="] ++ Value pd
          ++ UnitOfMeasurement pd)
         ++ [chr ";"] ++ Warn pd ++ [chr ";"] ++ Crit pd
         ++ [chr ";"] ++ Min pd ++ [chr ";"] ++ Max pd).
    repeat (apply existsb_false_app; split); try assumption; reflexivity. }
  assert (Hne : tok <> []) by discriminate.
  assert (Hend : ContainsRune [dquote] (last tok (chr " ")) = false).
  { assert (E : tok =
                ((squote :: Label pd ++ squote :: chr "=" :: Value pd
                    ++ UnitOfMeasurement pd)
                   ++ chr ";" :: Warn pd ++ chr ";" :: Crit pd
                   ++ chr ";" :: Min pd) ++ chr ";" :: Max pd).
    { unfold tok. repeat (rewrite <- app_assoc; cbn [app]). reflexivity. }
    rewrite E, last_app_cons.
    destruct (Max pd) as [|r ma]; [reflexivity|].
    change (last (chr ";" :: r :: ma) (chr " ")) with (last (r :: ma) (chr " ")).
    rewrite (last_default r ma (chr " ") 0).
    unfold ContainsRune. cbn [existsb]. rewrite orb_false_r.
    apply N.eqb_neq. exact Hlast. }
  unfold ParsePerfData.
  rewrite (TrimSpace_leading_space tok Hns).
  apply isEmpty_false in Hne as Hne'. rewrite Hne'.
  unfold Trim. rewrite TrimFunc_ends; [|reflexivity|exact Hend].
  rewrite (Fields_leading_space tok Hns Hne).
  cbn [parseEach]. unfold tok.
  now rewrite (parsePerfData_rendered pd Hshape).
Qed.

Lemma ParsePerfData_roundtrip (raw : str) (recs : list PerformanceData)
      (pd : PerformanceData) :
  ParsePerfData raw = Ok recs -> In pd recs -> last (Max pd) 0 <> dquote ->
  ParsePerfData (String pd) = Ok [pd].
Proof.
  intros H Hin Hlast.
  destruct (ParsePerfData_Ok raw recs pd H Hin) as (m & Hm & P).
  apply Fields_token in Hm as [Hns _].
  apply ParsePerfData_String; [|exact Hlast].
  now apply parsePerfData_shape with (m := m).
Qed.

(** ** Where a double quote can stand in a well-formed metric *)

Lemma TrimFunc_within (s : str) (f : rune -> bool) :
  exists a b, s = a ++ TrimFunc s f ++ b.
Proof.
  unfold TrimFunc, TrimLeftFunc, TrimRightFunc.
  exists (takeWhile f s), (rev (takeWhile f (rev (dropWhile f s)))).
  rewrite <- rev_app_distr, takeWhile_dropWhile, rev_involutive.
  now rewrite takeWhile_dropWhile.
Qed.

Lemma splitFunc_first_prefix (f : rune -> bool) (s p : str) (ps : list str) :
  splitFunc f s = p :: ps -> exists b, s = p ++ b.
Proof.
  revert p ps. induction s as [|r s IH]; simpl; intros p ps H.
  - inversion H. now exists [].
  - destruct (f r).
    + inversion H. now exists (r :: s).
    + destruct (splitFunc f s) as [|q qs] eqn:S; inversion H; subst.
      * now exists s.
      * destruct (IH q ps eq_refl) as [b Eb]. exists b. simpl. now rewrite <- Eb.
Qed.

Lemma splitFunc_piece_within (f : rune -> bool) (s piece : str) :
  In piece (splitFunc f s) -> exists a b, s = a ++ piece ++ b.
Proof.
  revert piece. induction s as [|r s IH]; simpl; intros piece H.
  - destruct H as [<-|[]]. now exists [], [].
  - destruct (f r).
    + destruct H as [<-|H]; [now exists [], (r :: s)|].
      destruct (IH piece H) as (a & b & E). exists (r :: a), b. simpl. now rewrite <- E.
    + destruct (splitFunc f s) as [|p ps] eqn:S.
      * destruct H as [<-|[]]. exists [], s. reflexivity.
      * destruct H as [<-|H].
        -- destruct (splitFunc_first_prefix f s p ps S) as [b Eb].
           exists [], b. simpl. now rewrite <- Eb.
        -- destruct (IH piece (or_intror H)) as (a & b & E).
           exists (r :: a), b. simpl. now rewrite <- E.
Qed.

(** What follows a later [=] is the end of what follows the first one. *)
Lemma after_first_equals (sep : rune) (lab tail x y : str) :
  existsb (N.eqb sep) lab = false ->
  lab ++ sep :: tail = x ++ sep :: y ->
  exists z, tail = z ++ y.
Proof.
  revert x. induction lab as [|l lab IH]; simpl; intros x Hlab E.
  - destruct x as [|x0 x]; simpl in E.
    + exists []. now injection E.
    + injection E as E1 E2.
      exists (x ++ [sep]). rewrite E2, <- app_assoc. reflexivity.
  - apply orb_false_iff in Hlab as [Hl Hlab].
    destruct x as [|x0 x]; simpl in E; injection E as E1 E2.
    + rewrite E1, N.eqb_refl in Hl. discriminate.
    + now apply (IH x).
Qed.

Lemma wellFormedMetric_tail (s : str) :
  wellFormedMetric s ->
  exists lab tail,
    s = lab ++ chr "=" :: tail
    /\ existsb (N.eqb (chr "=")) lab = false
    /\ existsb (N.eqb dquote) tail = false.
Proof.
  intros (quoted & label & value & uom & warn & crit & min & max
          & E & Hlab & Hvu & Hw & Hc & Hmi & Hma).
  exists (if quoted then squote :: label ++ [squote] else label),
         (value ++ uom ++ chr ";" :: warn ++ chr ";" :: crit
            ++ chr ";" :: min ++ chr ";" :: max).
  split; [exact E|].
  assert (He : existsb (N.eqb (chr "=")) label = false).
  { revert Hlab. unfold ContainsAny. apply existsb_ext_false. intros r. rune_solve. }
  assert (Qv : forall t, forallb (inClass valueClass) t = true ->
                         existsb (N.eqb dquote) t = false).
  { intros t. apply forallb_existsb_false. intros r. rune_solve. }
  assert (Qt : forall t, forallb (inClass thresholdClass) t = true ->
                         existsb (N.eqb dquote) t = false).
  { intros t. apply forallb_existsb_false. intros r. rune_solve. }
  assert (Qu : forall t, forallb (inClass uomClass) t = true ->
                         existsb (N.eqb dquote) t = false).
  { intros t. apply forallb_existsb_false. intros r. rune_solve. }
  split.
  - destruct quoted; [|exact He].
    change (squote :: label ++ [squote]) with ([squote] ++ label ++ [squote]).
    repeat (apply existsb_false_app; split); try assumption; reflexivity.
  - assert (Hv' : existsb (N.eqb dquote) value = false
                  /\ existsb (N.eqb dquote) uom = false).
    { destruct Hvu as [[-> ->]|(_ & Hv & Hu)]; [split; reflexivity|].
      split; [now apply Qv | now apply Qu]. }
    destruct Hv' as [Hv' Hu'].
    change (value ++ uom ++ chr ";" :: warn ++ chr ";" :: crit
              ++ chr ";" :: min ++ chr ";" :: max)
      with (value ++ uom ++ [chr ";"] ++ warn ++ [chr ";"] ++ crit
              ++ [chr ";"] ++ min ++ [chr ";"] ++ max).
    repeat (apply existsb_false_app; split);
      auto using Qv, Qt, Qu; reflexivity.
Qed.

Lemma existsb_true_TrimFunc (f g : rune -> bool) (s : str) :
  existsb g (TrimFunc s f) = true -> existsb g s = true.
Proof.
  intros H. destruct (existsb g s) eqn:E; [reflexivity|].
  rewrite (existsb_false_TrimFunc f g s E) in H. discriminate.
Qed.

(** A double quote in the Max of a parsed metric stands behind an [=]. *)
Lemma parsePerfData_Max_quote (m : str) (pd : PerformanceData) :
  parsePerfData m = Ok pd -> existsb (N.eqb dquote) (Max pd) = true ->
  exists x y, m = x ++ chr "=" :: y /\ existsb (N.eqb dquote) y = true.
Proof.
  intros H Hq.
  apply parsePerfData_Ok_inv in H
    as (_ & before & after & C & _ & _ & _ & _ & _ & _ & _ & [EMa _]).
  rewrite EMa in Hq. apply existsb_true_TrimFunc in Hq.
  apply Cut_Some in C as [E0 _].
  unfold Split in *.
  destruct (splitFunc (N.eqb (chr ";")) m) as [|f0 ps] eqn:S.
  { now apply splitFunc_not_nil in S. }
  cbn [nth] in E0, Hq.
  assert (Hps : ps <> []) by (intros ->; discriminate).
  destruct (splitFunc_first _ m f0 ps S Hps) as (sep & t & Em & _ & Et).
  assert (Ht : existsb (N.eqb dquote) t = true).
  { apply splitFunc_piece_has with (f := N.eqb (chr ";")) (piece := nth 3 ps []);
      [|exact Hq].
    rewrite Et. destruct (nth_in_or_default 3 ps []) as [Hin|Hd]; [exact Hin|].
    rewrite Hd in Hq. discriminate. }
  exists before, (after ++ sep :: t). split.
  - rewrite Em, E0, <- app_assoc. reflexivity.
  - rewrite existsb_app. apply orb_true_iff. right.
    cbn [existsb]. apply orb_true_iff. right. exact Ht.
Qed.

Lemma wellFormed_Max_no_quote (raw : str) (recs : list PerformanceData)
      (pd : PerformanceData) :
  wellFormedMetric raw -> ParsePerfData raw = Ok recs -> In pd recs ->
  existsb (N.eqb dquote) (Max pd) = false.
Proof.
  intros Hwf H Hin.
  destruct (existsb (N.eqb dquote) (Max pd)) eqn:Q; [exfalso|reflexivity].
  destruct (ParsePerfData_Ok raw recs pd H Hin) as (m & Hm & P).
  destruct (parsePerfData_Max_quote m pd P Q) as (x & y & Em & Hy).
  unfold metrics, Fields in Hm. apply filter_In in Hm as [Hm _].
  apply splitFunc_piece_within in Hm as (a & b & Et).
  destruct (TrimFunc_within raw (ContainsRune [dquote])) as (q1 & q2 & Er).
  fold (Trim raw [dquote]) in Er. rewrite Et, Em in Er.
  destruct (wellFormedMetric_tail raw Hwf) as (lab & tail & El & Hlab & Htail).
  assert (E : lab ++ chr "=" :: tail
              = (q1 ++ a ++ x) ++ chr "=" :: (y ++ b ++ q2)).
  { rewrite <- El, Er. repeat (rewrite <- app_assoc; cbn [app]). reflexivity. }
  destruct (after_first_equals _ _ _ _ _ Hlab E) as [z Ez].
  rewrite Ez in Htail.
  apply existsb_false_app in Htail as [_ Htail].
  apply existsb_false_app in Htail as [Htail _].
  congruence.
Qed.

(** C1: a record that [ParsePerfData] produces from a well-formed metric
    string with all five fields is read back from its own rendering: parsing
    [String pd] gives the one-element sequence [[pd]], the record with the
    same Label, Value, UnitOfMeasurement, Warn, Crit, Min and Max. *)
Theorem roundtrip_on_well_formed_metric (raw : str) (recs : list PerformanceData)
        (pd : PerformanceData) :
  wellFormedMetric raw -> ParsePerfData raw = Ok recs -> In pd recs ->
  ParsePerfData (String pd) = Ok [pd].
Proof.
  intros Hwf H Hin.
  apply (ParsePerfData_roundtrip raw recs pd H Hin).
  assert (Q := wellFormed_Max_no_quote raw recs pd Hwf H Hin).
  destruct (Max pd) as [|r ma] eqn:E; [discriminate|].
  intros Hl.
  assert (Hlast : In (last (r :: ma) 0) (r :: ma)).
  { destruct (exists_last (l := r :: ma)) as (l' & x & El); [discriminate|].
    rewrite El, last_last. apply in_or_app. right. now left. }
  rewrite Hl in Hlast.
  assert (T : existsb (N.eqb dquote) (r :: ma) = true).
  { apply existsb_exists. exists dquote. split; [exact Hlast | apply N.eqb_refl]. }
  congruence.
Qed.

Lemma roundtrip_on_well_formed_metric_witness :
  let pd := {| Label := lit "disk_used"; Value := lit "42.5";
               UnitOfMeasurement := lit "GB"; Warn := lit "80";
               Crit := lit "90"; Min := lit "0"; Max := lit "100" |} in
  ParsePerfData (String pd) = Ok [pd].
Proof.
  intros pd.
  apply (roundtrip_on_well_formed_metric
           (lit "'disk_used'=42.5GB;80;90;0;100") [pd] pd).
  - exists true, (lit "disk_used"), (lit "42.5"), (lit "GB"),
           (lit "80"), (lit "90"), (lit "0"), (lit "100").
    split; [vm_compute; reflexivity|].
    split; [vm_compute; reflexivity|].
    split.
    { right. split; [vm_compute; discriminate|].
      split; vm_compute; reflexivity. }
    repeat split; vm_compute; reflexivity.
  - vm_compute. reflexivity.
  - left. reflexivity.
Defined.

(** Outside the well-formed strings the round trip can fail: a Max that
    ends in a double quote (here kept by the white space behind it) loses
    the quote when its rendering is parsed, because the batch is trimmed
    of double quotes first. *)
Lemma roundtrip_loses_trailing_double_quote :
  let pd := {| Label := lit "a"; Value := lit "1"; UnitOfMeasurement := [];
               Warn := lit "2"; Crit := lit "3"; Min := lit "4";
               Max := lit "5" ++ [dquote] |} in
  ParsePerfData (lit "a=1;2;3;4;5" ++ [dquote; chr " "]) = Ok [pd]
  /\ ParsePerfData (String pd) =
     Ok [ {| Label := lit "a"; Value := lit "1"; UnitOfMeasurement := [];
             Warn := lit "2"; Crit := lit "3"; Min := lit "4";
             Max := lit "5" |} ].
Proof. split; vm_compute; reflexivity. Qed.

(** * Further properties of the parser and the serializer *)

(** ** The batch parser as a whole *)

Lemma parseEach_of_Forall2 (l : list str) (acc pds : list PerformanceData) :
  Forall2 (fun m pd => parsePerfData m = Ok pd) l pds ->
  parseEach l acc = Ok (acc ++ pds).
Proof.
  intros F. revert acc. induction F as [|m pd l pds P F IH]; intros acc; simpl.
  - now rewrite app_nil_r.
  - rewrite P, IH, <- app_assoc. reflexivity.
Qed.

(** X1: [ParsePerfData] succeeds exactly when the batch is not blank and
    every metric substring parses; the records then come one per metric
    substring, in the order of the batch. *)
Theorem ParsePerfData_one_record_per_metric (raw : str)
        (recs : list PerformanceData) :
  ParsePerfData raw = Ok recs <->
  TrimSpace raw <> []
  /\ Forall2 (fun m pd => parsePerfData m = Ok pd) (metrics raw) recs.
Proof.
  unfold ParsePerfData. fold (metrics raw). split.
  - destruct (isEmpty (TrimSpace raw)) eqn:E; [discriminate|].
    intros H. apply parseEach_Ok in H as (pds & Er & F). subst recs.
    split; [now apply isEmpty_false | exact F].
  - intros [Hne F]. apply isEmpty_false in Hne. rewrite Hne.
    now rewrite (parseEach_of_Forall2 _ [] recs F).
Qed.

Lemma parseEach_first_failure (pre post : list str) (m : str) (e : error)
      (acc : list PerformanceData) :
  Forall (fun x => exists pd, parsePerfData x = Ok pd) pre ->
  parsePerfData m = Err e ->
  parseEach (pre ++ m :: post) acc = Err e.
Proof.
  intros F He. revert acc. induction F as [|x pre [pd Hx] F IH]; intros acc; simpl.
  - now rewrite He.
  - rewrite Hx. apply IH.
Qed.

(** X2: a batch fails with the error of its first metric that does not
    parse; the metrics behind it are not looked at and no record of the
    metrics in front of it is returned. *)
Theorem ParsePerfData_first_failure (raw : str) (pre post : list str) (m : str)
        (e : error) :
  TrimSpace raw <> [] ->
  metrics raw = pre ++ m :: post ->
  Forall (fun x => exists pd, parsePerfData x = Ok pd) pre ->
  parsePerfData m = Err e ->
  ParsePerfData raw = Err e.
Proof.
  intros Hne Hm F He. unfold ParsePerfData. fold (metrics raw).
  apply isEmpty_false in Hne. rewrite Hne, Hm.
  now apply parseEach_first_failure.
Qed.

Lemma ParsePerfData_first_failure_witness :
  ParsePerfData (lit "load1=0.26;5 load5=x;4 load15=;3") =
  Err (Errorf "failed to extract value and uom: %w" []
         (Errorf "failed to extract Value and UoM fields from input string %q: %w"
                 [OpString (lit "x")] ErrInvalidPerformanceDataFormat)).
Proof.
  apply (ParsePerfData_first_failure
           (lit "load1=0.26;5 load5=x;4 load15=;3")
           [lit "load1=0.26;5"] [lit "load15=;3"] (lit "load5=x;4")).
  - vm_compute. discriminate.
  - vm_compute. reflexivity.
  - constructor; [|constructor]. eexists. vm_compute. reflexivity.
  - vm_compute. reflexivity.
Defined.

(** X3: every error [ParsePerfData] returns, whatever its cause, wraps
    [ErrInvalidPerformanceDataFormat]. *)
Theorem ParsePerfData_errors_wrap_the_sentinel (raw : str) (e : error) :
  ParsePerfData raw = Err e -> Is e ErrInvalidPerformanceDataFormat = true.
Proof.
  unfold ParsePerfData. destruct (isEmpty (TrimSpace raw)).
  - intros H. inversion H. reflexivity.
  - apply parseEach_error.
Qed.

Lemma ParsePerfData_errors_wrap_the_sentinel_witness :
  Is (Errorf "failed to parse crit field: %w" []
        (Errorf "field Crit fails validation: %w" []
           ErrInvalidPerformanceDataFormat))
     ErrInvalidPerformanceDataFormat = true.
Proof.
  apply (ParsePerfData_errors_wrap_the_sentinel (lit "a=1;2;high")).
  vm_compute. reflexivity.
Defined.

Lemma Fields_nil (s : str) : Fields s = [] <-> forallb isSpace s = true.
Proof.
  unfold Fields. induction s as [|r s IH]; simpl; [tauto|].
  destruct (isSpace r) eqn:E; simpl; [exact IH|].
  destruct (splitFunc isSpace s); simpl; split; discriminate.
Qed.

Lemma TrimFunc_nil (s : str) (f : rune -> bool) :
  TrimFunc s f = [] <-> forallb f s = true.
Proof.
  split.
  - intros H.
    assert (E : existsb (fun r => negb (f r)) s = false).
    { rewrite <- (existsb_TrimFunc f (fun r => negb (f r)) s), H; [reflexivity|].
      intros r. now rewrite negb_true_iff. }
    clear H. induction s as [|r s IH]; simpl in *; [reflexivity|].
    apply orb_false_iff in E as [E1 E2]. apply negb_false_iff in E1.
    now rewrite E1, IH.
  - intros H. unfold TrimFunc, TrimLeftFunc, TrimRightFunc.
    now rewrite (dropWhile_all f s H).
Qed.

(** X4: a batch succeeds with no record at all exactly when it is not
    blank and nothing but white space is left of it once the double quotes
    at its two ends are removed: a pair of double quotes, for one. *)
Theorem ParsePerfData_no_records (raw : str) :
  ParsePerfData raw = Ok [] <->
  TrimSpace raw <> [] /\ forallb isSpace (Trim raw [dquote]) = true.
Proof.
  rewrite ParsePerfData_one_record_per_metric. unfold metrics.
  rewrite <- Fields_nil. split; intros [Hne H]; split; try exact Hne.
  - now inversion H.
  - rewrite H. constructor.
Qed.

Lemma ParsePerfData_no_records_witness :
  ParsePerfData [dquote; chr " "; dquote] = Ok [].
Proof.
  apply (proj2 (ParsePerfData_no_records [dquote; chr " "; dquote])).
  split; [vm_compute; discriminate | vm_compute; reflexivity].
Defined.

Lemma forallb_ext_true {A : Type} (f g : A -> bool) (s : list A) :
  (forall r, f r = true -> g r = true) ->
  forallb f s = true -> forallb g s = true.
Proof.
  intros H. induction s as [|r s IH]; simpl; [reflexivity|].
  intros E. apply andb_true_iff in E as [E1 E2].
  now rewrite (H r E1), (IH E2).
Qed.

(** X5: double quotes around a batch, any number at either end, change
    nothing: the batch parses as it does without them. *)
Theorem ParsePerfData_ignores_outer_double_quotes (q1 q2 raw : str) :
  forallb (N.eqb dquote) q1 = true -> forallb (N.eqb dquote) q2 = true ->
  TrimSpace raw <> [] ->
  ParsePerfData (q1 ++ raw ++ q2) = ParsePerfData raw.
Proof.
  intros H1 H2 Hne. unfold ParsePerfData.
  assert (Q : forall q, forallb (N.eqb dquote) q = true ->
                        forallb (ContainsRune [dquote]) q = true).
  { intros q. apply forallb_ext_true. intros r Hr. unfold ContainsRune.
    apply N.eqb_eq in Hr. subst r. reflexivity. }
  unfold Trim. rewrite (TrimFunc_pad _ q1 raw q2 (Q q1 H1) (Q q2 H2)).
  assert (E : isEmpty (TrimSpace (q1 ++ raw ++ q2)) = false).
  { apply isEmpty_false. unfold TrimSpace. intros T. apply TrimFunc_nil in T.
    rewrite !forallb_app in T. apply andb_true_iff in T as [_ T].
    apply andb_true_iff in T as [T _].
    apply Hne. now apply TrimFunc_nil. }
  apply isEmpty_false in Hne. now rewrite E, Hne.
Qed.

Lemma ParsePerfData_ignores_outer_double_quotes_witness :
  ParsePerfData ([dquote; dquote] ++ lit "load1=0.26;5;10;0;" ++ [dquote])
  = ParsePerfData (lit "load1=0.26;5;10;0;").
Proof.
  apply (ParsePerfData_ignores_outer_double_quotes
           [dquote; dquote] [dquote] (lit "load1=0.26;5;10;0;")).
  - reflexivity.
  - reflexivity.
  - vm_compute. discriminate.
Defined.

Lemma ParsePerfData_one_record_per_metric_witness :
  ParsePerfData (lit "load1=0.26;5;10;0; load5=0.32;4;6;0; load15=0.30;3;4;0;") =
  Ok [ {| Label := lit "load1"; Value := lit "0.26"; UnitOfMeasurement := [];
          Warn := lit "5"; Crit := lit "10"; Min := lit "0"; Max := [] |};
       {| Label := lit "load5"; Value := lit "0.32"; UnitOfMeasurement := [];
          Warn := lit "4"; Crit := lit "6"; Min := lit "0"; Max := [] |};
       {| Label := lit "load15"; Value := lit "0.30"; UnitOfMeasurement := [];
          Warn := lit "3"; Crit := lit "4"; Min := lit "0"; Max := [] |} ].
Proof.
  apply (proj2 (ParsePerfData_one_record_per_metric _ _)).
  split; [vm_compute; discriminate|].
  vm_compute. repeat constructor.
Defined.

(** ** The other validators *)



(** X7: the Value validator accepts a string exactly when it holds,
    anywhere, a rune of [[-0-9.]] or the letter [U]; so it refuses the
    empty string, and it accepts words such as [UP] that are neither a
    number nor the lone [U]. *)
Theorem value_needs_one_numeric_rune_or_U (s : str) :
  validatePerfDataValueField s = None <->
  existsb (inClass valueClass) s = true \/ ContainsRune s (chr "U") = true.
Proof.
  rewrite validatePerfDataValueField_spec. unfold ContainsRune.
  assert (E : existsb (fun r => inClass valueClass r || (chr "U" =? r)) s
              = existsb (inClass valueClass) s || existsb (N.eqb (chr "U")) s).
  { induction s as [|r s IH]; cbn [existsb]; [reflexivity|]. rewrite IH.
    destruct (inClass valueClass r), (chr "U" =? r),
      (existsb (inClass valueClass) s); reflexivity. }
  rewrite E.
  destruct (existsb (inClass valueClass) s), (existsb (N.eqb (chr "U")) s);
    simpl; split; intros H; try reflexivity; try discriminate; try tauto.
  destruct H; discriminate.
Qed.

Lemma value_needs_one_numeric_rune_or_U_witness :
  validatePerfDataValueField (lit "UP") = None.
Proof.
  apply (proj2 (value_needs_one_numeric_rune_or_U (lit "UP"))).
  right. reflexivity.
Defined.

Lemma forallb_existsb_negb {A : Type} (f : A -> bool) (s : list A) :
  forallb (fun r => negb (f r)) s = negb (existsb f s).
Proof.
  induction s as [|r s IH]; simpl; [reflexivity|].
  rewrite IH. now destruct (f r).
Qed.

Lemma uomClass_negb (r : rune) :
  inClass uomClass r = negb (ContainsRune perfDataUoMFieldDisallowedCharacters r).
Proof.
  destruct (inClass uomClass r) eqn:A,
           (ContainsRune perfDataUoMFieldDisallowedCharacters r) eqn:B;
    try reflexivity; exfalso; revert A B; rune_solve.
Qed.

(** X8: the UoM validator accepts exactly the strings made of runes of the
    class the pattern captures as UoM (no digit, no semicolon, no quote of
    either kind); the empty string and white space are among them. *)
Theorem uom_validator_is_the_capture_class (s : str) :
  validatePerfDataUoMField s = None <-> forallb (inClass uomClass) s = true.
Proof.
  assert (E : forallb (inClass uomClass) s
              = negb (ContainsAny s perfDataUoMFieldDisallowedCharacters)).
  { unfold ContainsAny. rewrite <- forallb_existsb_negb.
    induction s as [|r s IH]; cbn [forallb]; [reflexivity|].
    now rewrite IH, uomClass_negb. }
  assert (T : ContainsAny (TrimSpace s) perfDataUoMFieldDisallowedCharacters
              = ContainsAny s perfDataUoMFieldDisallowedCharacters).
  { unfold ContainsAny, TrimSpace. apply existsb_TrimFunc.
    intros r. rune_solve. }
  rewrite E. unfold validatePerfDataUoMField. cbv zeta. rewrite T.
  destruct (isEmpty (TrimSpace s)) eqn:Em.
  - apply isEmpty_true in Em. rewrite <- T, Em. simpl. tauto.
  - destruct (ContainsAny s perfDataUoMFieldDisallowedCharacters); simpl;
      split; intros H; try reflexivity; discriminate.
Qed.

Lemma uom_validator_is_the_capture_class_witness :
  validatePerfDataUoMField (lit "MB/s") = None.
Proof.
  apply (proj2 (uom_validator_is_the_capture_class (lit "MB/s"))).
  reflexivity.
Defined.

(** X9: the Label validator accepts exactly the strings that are not blank
    and hold neither [=] nor a single quote; inner white space, semicolons
    and double quotes are let through. *)
Theorem label_validator_accepts (s : str) :
  validatePerfDataLabelField s = None <->
  TrimSpace s <> []
  /\ ContainsRune s (chr "=") = false /\ ContainsRune s squote = false.
Proof.
  assert (T : ContainsAny (TrimSpace s) perfDataLabelFieldDisallowedCharacters
              = ContainsAny s perfDataLabelFieldDisallowedCharacters).
  { unfold ContainsAny, TrimSpace. apply existsb_TrimFunc.
    intros r. rune_solve. }
  assert (E : ContainsAny s perfDataLabelFieldDisallowedCharacters
              = ContainsRune s (chr "=") || ContainsRune s squote).
  { clear T. unfold ContainsAny, ContainsRune.
    induction s as [|r s IH]; cbn [existsb]; [reflexivity|]. rewrite IH.
    unfold perfDataLabelFieldDisallowedCharacters. cbn [existsb].
    rewrite (N.eqb_sym r (chr "=")), (N.eqb_sym r squote).
    destruct (chr "=" =? r), (squote =? r),
      (existsb (N.eqb (chr "=")) s); reflexivity. }
  unfold validatePerfDataLabelField. cbv zeta. rewrite T, E.
  destruct (ContainsRune s (chr "=")) eqn:A, (ContainsRune s squote) eqn:B,
    (isEmpty (TrimSpace s)) eqn:Em; cbn [negb andb orb];
    split; intros H; try reflexivity; try discriminate;
    try (destruct H as (_ & H1 & H2); discriminate).
  - destruct H as [H _]. apply isEmpty_true in Em. congruence.
  - apply isEmpty_false in Em. split; [exact Em | split; reflexivity].
Qed.

Lemma label_validator_accepts_witness :
  validatePerfDataLabelField (lit " response time; in ms ") = None.
Proof.
  apply (proj2 (label_validator_accepts (lit " response time; in ms "))).
  split; [vm_compute; discriminate|]. split; reflexivity.
Defined.

(** X10: once the pattern has matched, the splitter cannot fail: the Value
    it captured always passes the Value check and the unit it captured
    always passes the UoM check, so both captures are returned as they
    are. *)
Theorem matched_captures_always_pass (input : str) (matches : list str) :
  FindStringSubmatch perfDataValueAndUoMFieldsRegex input = Some matches ->
  checkValueAndUoM perfDataValueAndUoMFieldsRegex input matches
  = Ok (nth 1 matches [], nth 2 matches [])
  /\ validatePerfDataValueField (nth 1 matches []) = None
  /\ validatePerfDataUoMField (nth 2 matches []) = None.
Proof.
  unfold perfDataValueAndUoMFieldsRegex. rewrite FindStringSubmatch_valueAndUoM.
  destruct (existsb (inClass valueClass) input) eqn:V; [|discriminate].
  intros H. inversion H; subst; clear H. cbn [nth].
  assert (HV := valueRun_passes_value_check input V).
  assert (HU : validatePerfDataUoMField (uomRun valueClass uomClass input) = None)
    by (apply uom_check_passes; apply takeWhile_all).
  split; [|split; assumption].
  unfold checkValueAndUoM. simpl SubexpIndex. cbv iota. simpl nth.
  now rewrite HV, HU.
Qed.

Lemma matched_captures_always_pass_witness :
  checkValueAndUoM perfDataValueAndUoMFieldsRegex (lit "x1.5%;2")
    [lit "1.5%"; lit "1.5"; lit "%"]
  = Ok (lit "1.5", lit "%")
  /\ validatePerfDataValueField (lit "1.5") = None
  /\ validatePerfDataUoMField (lit "%") = None.
Proof.
  apply (matched_captures_always_pass (lit "x1.5%;2")
           [lit "1.5%"; lit "1.5"; lit "%"]).
  vm_compute. reflexivity.
Defined.

(** ** What the parser guarantees about its records *)

Lemma ParsePerfData_shape (raw : str) (recs : list PerformanceData)
      (pd : PerformanceData) :
  ParsePerfData raw = Ok recs -> In pd recs -> parsedShape pd.
Proof.
  intros H Hin.
  destruct (ParsePerfData_Ok raw recs pd H Hin) as (m & Hm & P).
  apply Fields_token in Hm as [Hns _].
  now apply parsePerfData_shape with (m := m).
Qed.

(** X11: every record of a successful parse keeps the data model to the
    letter, although the field checks only search for one allowed rune.
    No field holds white space or a semicolon; the Label is not empty and
    has no [=] and no single quote; the Value is the lone [U] with an empty
    unit, or it is made of runes of [[-0-9.]] only and the unit holds no
    digit, semicolon or quote; Warn and Crit are empty or hold a rune of
    [[0-9~@:]], Min and Max are empty or hold a rune of [[-0-9.]]. *)
Theorem parsed_records_keep_the_data_model (raw : str)
        (recs : list PerformanceData) (pd : PerformanceData) :
  ParsePerfData raw = Ok recs -> In pd recs ->
  Forall (fun s => existsb isSpace s = false
                   /\ ContainsRune s (chr ";") = false) (fieldsOf pd)
  /\ (Label pd <> [] /\ ContainsRune (Label pd) (chr "=") = false
      /\ ContainsRune (Label pd) squote = false)
  /\ ((Value pd = lit "U" /\ UnitOfMeasurement pd = [])
      \/ (Value pd <> [] /\ forallb (inClass valueClass) (Value pd) = true
          /\ forallb (inClass uomClass) (UnitOfMeasurement pd) = true))
  /\ (Warn pd = [] \/ existsb (inClass thresholdClass) (Warn pd) = true)
  /\ (Crit pd = [] \/ existsb (inClass thresholdClass) (Crit pd) = true)
  /\ (Min pd = [] \/ existsb (inClass valueClass) (Min pd) = true)
  /\ (Max pd = [] \/ existsb (inClass valueClass) (Max pd) = true).
Proof.
  intros H Hin.
  destruct (ParsePerfData_shape raw recs pd H Hin)
    as [Hsp Hse [HL HLd] HVU HW HC HMi HMa].
  assert (Hboth : Forall (fun s => existsb isSpace s = false
                                   /\ ContainsRune s (chr ";") = false)
                         (fieldsOf pd)).
  { apply Forall_forall. intros s Hs.
    rewrite Forall_forall in Hsp, Hse. split; [now apply Hsp|].
    unfold ContainsRune. now apply Hse. }
  assert (Sp : forall s, In s (fieldsOf pd) -> TrimSpace s = s).
  { intros s Hs. rewrite Forall_forall in Hsp. apply TrimFunc_none. now apply Hsp. }
  assert (Dec : forall s c, In s (fieldsOf pd) ->
                  isEmpty (TrimSpace s) || existsb (inClass c) s = true ->
                  s = [] \/ existsb (inClass c) s = true).
  { intros s c Hs Hb. apply orb_true_iff in Hb as [Hb|Hb]; [left | now right].
    apply isEmpty_true in Hb. now rewrite (Sp s Hs) in Hb. }
  split; [exact Hboth|]. split.
  { assert (V : validatePerfDataLabelField (Label pd) = None).
    { unfold validatePerfDataLabelField. cbv zeta.
      rewrite (Sp (Label pd)) by (unfold fieldsOf; simpl; tauto).
      apply isEmpty_false in HL as HL'. now rewrite HL', HLd. }
    apply (proj1 (label_validator_accepts (Label pd))) in V as (_ & V1 & V2).
    now repeat split. }
  split.
  { destruct HVU as [HVU|(A & B & C & _)]; [now left | right; now repeat split]. }
  rewrite validatePerfDataWarnField_spec in HW.
  rewrite validatePerfDataCritField_spec in HC.
  rewrite validatePerfDataMinField_spec in HMi.
  rewrite validatePerfDataMaxField_spec in HMa.
  repeat split.
  - apply Dec; [unfold fieldsOf; simpl; tauto|].
    destruct (isEmpty (TrimSpace (Warn pd)) || _); [reflexivity | discriminate].
  - apply Dec; [unfold fieldsOf; simpl; tauto|].
    destruct (isEmpty (TrimSpace (Crit pd)) || _); [reflexivity | discriminate].
  - apply Dec; [unfold fieldsOf; simpl; tauto|].
    destruct (isEmpty (TrimSpace (Min pd)) || _); [reflexivity | discriminate].
  - apply Dec; [unfold fieldsOf; simpl; tauto|].
    destruct (isEmpty (TrimSpace (Max pd)) || _); [reflexivity | discriminate].
Qed.

Lemma parsed_records_keep_the_data_model_witness :
  let pd := {| Label := lit "a"; Value := lit "12"; UnitOfMeasurement := lit "ms";
               Warn := lit "5x"; Crit := []; Min := []; Max := [] |} in
  Forall (fun s => existsb isSpace s = false
                   /\ ContainsRune s (chr ";") = false) (fieldsOf pd)
  /\ (Label pd <> [] /\ ContainsRune (Label pd) (chr "=") = false
      /\ ContainsRune (Label pd) squote = false)
  /\ ((Value pd = lit "U" /\ UnitOfMeasurement pd = [])
      \/ (Value pd <> [] /\ forallb (inClass valueClass) (Value pd) = true
          /\ forallb (inClass uomClass) (UnitOfMeasurement pd) = true))
  /\ (Warn pd = [] \/ existsb (inClass thresholdClass) (Warn pd) = true)
  /\ (Crit pd = [] \/ existsb (inClass thresholdClass) (Crit pd) = true)
  /\ (Min pd = [] \/ existsb (inClass valueClass) (Min pd) = true)
  /\ (Max pd = [] \/ existsb (inClass valueClass) (Max pd) = true).
Proof.
  intros pd.
  apply (parsed_records_keep_the_data_model (lit "a=x12ms3;5x") [pd] pd).
  - vm_compute. reflexivity.
  - left. reflexivity.
Defined.

(** ** Rendering and parsing again, in general *)

(** X12: the round trip holds for every record of every successful parse,
    well-formed input or not, as long as its Max does not end in a double
    quote: parsing the rendering gives back that one record. *)
Theorem roundtrip_of_any_parsed_record (raw : str) (recs : list PerformanceData)
        (pd : PerformanceData) :
  ParsePerfData raw = Ok recs -> In pd recs -> last (Max pd) 0 <> dquote ->
  ParsePerfData (String pd) = Ok [pd].
Proof. apply ParsePerfData_roundtrip. Qed.

Lemma roundtrip_of_any_parsed_record_witness :
  let pd := {| Label := lit "a"; Value := lit "12"; UnitOfMeasurement := lit "ms=";
               Warn := lit "5x"; Crit := lit "@"; Min := []; Max := lit "9z" |} in
  ParsePerfData (String pd) = Ok [pd].
Proof.
  intros pd.
  apply (roundtrip_of_any_parsed_record
           (lit "b=1 'a'=x12ms=3;5x;@;;9z")
           [ {| Label := lit "b"; Value := lit "1"; UnitOfMeasurement := [];
                Warn := []; Crit := []; Min := []; Max := [] |}; pd] pd).
  - vm_compute. reflexivity.
  - right. left. reflexivity.
  - vm_compute. discriminate.
Defined.

(** X13: on the records the parser produces the rendering is one to one:
    two parsed records with the same text are the same record.  (On
    arbitrary records it is not: Value [1] with unit [2ms] and Value [12]
    with unit [ms] render alike.) *)
Theorem String_injective_on_parsed_records
        (raw1 raw2 : str) (recs1 recs2 : list PerformanceData)
        (pd1 pd2 : PerformanceData) :
  ParsePerfData raw1 = Ok recs1 -> In pd1 recs1 ->
  ParsePerfData raw2 = Ok recs2 -> In pd2 recs2 ->
  String pd1 = String pd2 -> pd1 = pd2.
Proof.
  intros H1 I1 H2 I2 E.
  assert (S1 := ParsePerfData_shape raw1 recs1 pd1 H1 I1).
  assert (S2 := ParsePerfData_shape raw2 recs2 pd2 H2 I2).
  assert (P1 := parsePerfData_rendered pd1 S1).
  assert (P2 := parsePerfData_rendered pd2 S2).
  assert (T : tl (String pd1) = tl (String pd2)) by now rewrite E.
  rewrite !String_unfold in T. cbn [tl] in T. rewrite T in P1.
  congruence.
Qed.

Lemma String_injective_on_parsed_records_witness :
  {| Label := lit "a"; Value := lit "1"; UnitOfMeasurement := [];
     Warn := []; Crit := []; Min := []; Max := [] |}
  = {| Label := lit "a"; Value := lit "1"; UnitOfMeasurement := [];
       Warn := []; Crit := []; Min := []; Max := [] |}.
Proof.
  set (pd := {| Label := lit "a"; Value := lit "1"; UnitOfMeasurement := [];
                Warn := []; Crit := []; Min := []; Max := [] |}).
  apply (String_injective_on_parsed_records
           (lit "a=1") (lit "'a'=1;;;;") [pd] [pd] pd pd).
  - vm_compute. reflexivity.
  - left. reflexivity.
  - vm_compute. reflexivity.
  - left. reflexivity.
  - reflexivity.
Defined.

(** ** Fields that are left out *)

Lemma splitFunc_snoc (f : rune -> bool) (s : str) (sep : rune) :
  f sep = true -> splitFunc f (s ++ [sep]) = splitFunc f s ++ [[]].
Proof.
  intros Hsep. induction s as [|r s IH]; simpl.
  - now rewrite Hsep.
  - rewrite IH. destruct (f r); [reflexivity|].
    destruct (splitFunc f s) as [|p ps] eqn:S; [|reflexivity].
    now apply splitFunc_not_nil in S.
Qed.

Lemma nth_snoc_default (l : list str) (i : nat) :
  nth i (l ++ [[]]) [] = nth i l [].
Proof.
  revert i. induction l as [|x l IH]; intros i; simpl.
  - destruct i as [|[|i]]; reflexivity.
  - destruct i; [reflexivity | apply IH].
Qed.

(** X14: a semicolon at the end of a metric that has fewer than five
    fields changes nothing at all: the same record, or the same error,
    comes out with it and without it. *)
Theorem trailing_semicolon_changes_nothing (m : str) :
  (length (Split m (chr ";")) <= 4)%nat ->
  parsePerfData (m ++ [chr ";"]) = parsePerfData m.
Proof.
  intros Hlen. unfold parsePerfData. cbv zeta.
  rewrite extractRawWarnCritMinMaxRawFieldVals_nth.
  rewrite extractRawWarnCritMinMaxRawFieldVals_nth.
  unfold Split in *. rewrite splitFunc_snoc by apply N.eqb_refl.
  rewrite !nth_snoc_default, length_app. cbn [length].
  assert (Hpos : (1 <= length (splitFunc (N.eqb (chr ";")) m))%nat).
  { destruct (splitFunc (N.eqb (chr ";")) m) eqn:S; [|simpl; lia].
    now apply splitFunc_not_nil in S. }
  unfold perfDataMinSemicolonSeparatedFields, perfDataMaxSemicolonSeparatedFields.
  replace (Z.of_nat (length (splitFunc (N.eqb (chr ";")) m) + 1) <? 1)%Z
    with false by (symmetry; apply Z.ltb_ge; lia).
  replace (5 <? Z.of_nat (length (splitFunc (N.eqb (chr ";")) m) + 1))%Z
    with false by (symmetry; apply Z.ltb_ge; lia).
  replace (Z.of_nat (length (splitFunc (N.eqb (chr ";")) m)) <? 1)%Z
    with false by (symmetry; apply Z.ltb_ge; lia).
  replace (5 <? Z.of_nat (length (splitFunc (N.eqb (chr ";")) m)))%Z
    with false by (symmetry; apply Z.ltb_ge; lia).
  reflexivity.
Qed.

Lemma trailing_semicolon_changes_nothing_witness :
  parsePerfData (lit "time=0.5s;1;2" ++ [chr ";"]) = parsePerfData (lit "time=0.5s;1;2").
Proof.
  apply (trailing_semicolon_changes_nothing (lit "time=0.5s;1;2")).
  vm_compute. lia.
Defined.

(** X15: a field that the metric leaves out is empty in the record: with
    at most one semicolon-separated piece Warn is empty, with at most two
    Crit, with at most three Min, with at most four Max. *)
Theorem absent_fields_are_empty (m : str) (pd : PerformanceData) :
  parsePerfData m = Ok pd ->
  ((length (Split m (chr ";")) <= 1)%nat -> Warn pd = [])
  /\ ((length (Split m (chr ";")) <= 2)%nat -> Crit pd = [])
  /\ ((length (Split m (chr ";")) <= 3)%nat -> Min pd = [])
  /\ ((length (Split m (chr ";")) <= 4)%nat -> Max pd = []).
Proof.
  intros H. apply parsePerfData_Ok_inv in H
    as (_ & before & after & _ & _ & _ & _ & _ & [EW _] & [EC _] & [EMi _] & [EMa _]).
  rewrite EW, EC, EMi, EMa.
  repeat split; intros Hlen; rewrite nth_overflow by lia; reflexivity.
Qed.

Lemma absent_fields_are_empty_witness :
  let pd := {| Label := lit "time"; Value := lit "0.5"; UnitOfMeasurement := lit "s";
               Warn := lit "1"; Crit := []; Min := []; Max := [] |} in
  ((length (Split (lit "time=0.5s;1") (chr ";")) <= 2)%nat -> Crit pd = [])
  /\ ((length (Split (lit "time=0.5s;1") (chr ";")) <= 4)%nat -> Max pd = []).
Proof.
  intros pd.
  destruct (absent_fields_are_empty (lit "time=0.5s;1") pd) as (_ & C & _ & M).
  - vm_compute. reflexivity.
  - split; assumption.
Defined.

(** X16: the rejection for fewer than the minimum of one field is never
    produced: a split always yields at least one piece, the empty string
    included.  An empty metric string is refused one step later, by the
    tokenizer. *)
Theorem minimum_field_count_never_fails :
  (forall m, (1 <= length (Split m (chr ";")))%nat)
  /\ (forall m e operands wrapped,
         parsePerfData m = Err e ->
         e <> Errorf
                "input appears to be empty; after processing %d fields found; expected minimum of %d: %w"
                operands wrapped)
  /\ parsePerfData [] =
     Err (Errorf "failed to extract label and raw value: %w" []
            (Errorf "func extractLabelAndRawValue: empty input provided: %w" []
                    ErrInvalidPerformanceDataFormat)).
Proof.
  assert (Hpos : forall m, (1 <= length (Split m (chr ";")))%nat).
  { intros m. unfold Split.
    destruct (splitFunc (N.eqb (chr ";")) m) eqn:S; [|simpl; lia].
    now apply splitFunc_not_nil in S. }
  split; [exact Hpos|]. split; [|reflexivity].
  intros m e operands wrapped. unfold parsePerfData. cbv zeta.
  replace (Z.of_nat (length (Split m (chr ";")))
           <? perfDataMinSemicolonSeparatedFields)%Z with false.
  2:{ symmetry. apply Z.ltb_ge. unfold perfDataMinSemicolonSeparatedFields.
      specialize (Hpos m). lia. }
  destruct (perfDataMaxSemicolonSeparatedFields <? _)%Z.
  { intros H. inversion H. discriminate. }
  destruct (extractLabelAndRawValue _) as [[label rawValue]|err].
  2:{ intros H. inversion H. discriminate. }
  destruct (extractValueAndUoM rawValue) as [[value uom]|err].
  2:{ intros H. inversion H. discriminate. }
  destruct (extractRawWarnCritMinMaxRawFieldVals _) as [[[rawWarn rawCrit] rawMin] rawMax].
  destruct (parsePerfDataWarnField rawWarn); [|intros H; inversion H; discriminate].
  destruct (parsePerfDataCritField rawCrit); [|intros H; inversion H; discriminate].
  destruct (parsePerfDataMinField rawMin); [|intros H; inversion H; discriminate].
  destruct (parsePerfDataMaxField rawMax); [|intros H; inversion H; discriminate].
  discriminate.
Qed.

Lemma minimum_field_count_never_fails_witness :
  Errorf "input contains %d semicolon separated fields; expected no more than %d: %w"
         [OpInt 6; OpInt 5] ErrInvalidPerformanceDataFormat
  <> Errorf
       "input appears to be empty; after processing %d fields found; expected minimum of %d: %w"
       [OpInt 0; OpInt 1] ErrInvalidPerformanceDataFormat.
Proof.
  apply (proj1 (proj2 minimum_field_count_never_fails) (lit ";;;;;")).
  vm_compute. reflexivity.
Defined.

(** ** The field parsers *)

Lemma TrimFunc_idem (s : str) (f : rune -> bool) :
  TrimFunc (TrimFunc s f) f = TrimFunc s f.
Proof.
  assert (E : exists a b, s = a ++ TrimFunc s f ++ b
                          /\ forallb f a = true /\ forallb f b = true).
  { unfold TrimFunc, TrimLeftFunc, TrimRightFunc.
    exists (takeWhile f s), (rev (takeWhile f (rev (dropWhile f s)))).
    split; [|split].
    - rewrite <- rev_app_distr, takeWhile_dropWhile, rev_involutive.
      now rewrite takeWhile_dropWhile.
    - apply takeWhile_all.
    - rewrite forallb_rev. apply takeWhile_all. }
  destruct E as (a & b & E & Ha & Hb).
  rewrite E at 2. symmetry. now apply TrimFunc_pad.
Qed.

Lemma field_parser_idem (validate : str -> option error) (s w : str) :
  match validate (TrimSpace s) with
  | Some err => Err err
  | None => Ok (TrimSpace s)
  end = Ok w ->
  w = TrimSpace s /\ TrimSpace w = w
  /\ match validate (TrimSpace w) with
     | Some err => Err err
     | None => Ok (TrimSpace w)
     end = Ok w.
Proof.
  destruct (validate (TrimSpace s)) eqn:V; intros H; inversion H; subst.
  assert (I : TrimSpace (TrimSpace s) = TrimSpace s) by apply TrimFunc_idem.
  split; [reflexivity|]. split; [exact I|]. now rewrite I, V.
Qed.

(** X17: each of the four field parsers returns its input trimmed of
    white space, and nothing else; the result has no white space left at
    its ends and is accepted unchanged when parsed again. *)
Theorem field_parsers_trim_and_are_idempotent :
  (forall s w, parsePerfDataWarnField s = Ok w ->
     w = TrimSpace s /\ TrimSpace w = w /\ parsePerfDataWarnField w = Ok w)
  /\ (forall s w, parsePerfDataCritField s = Ok w ->
        w = TrimSpace s /\ TrimSpace w = w /\ parsePerfDataCritField w = Ok w)
  /\ (forall s w, parsePerfDataMinField s = Ok w ->
        w = TrimSpace s /\ TrimSpace w = w /\ parsePerfDataMinField w = Ok w)
  /\ (forall s w, parsePerfDataMaxField s = Ok w ->
        w = TrimSpace s /\ TrimSpace w = w /\ parsePerfDataMaxField w = Ok w).
Proof.
  unfold parsePerfDataWarnField, parsePerfDataCritField, parsePerfDataMinField,
    parsePerfDataMaxField. cbv zeta.
  split; [|split; [|split]]; intros s w; apply field_parser_idem.
Qed.

Lemma field_parsers_trim_and_are_idempotent_witness :
  lit "~:10" = TrimSpace (lit "  ~:10 ")
  /\ TrimSpace (lit "~:10") = lit "~:10"
  /\ parsePerfDataWarnField (lit "~:10") = Ok (lit "~:10").
Proof.
  apply (proj1 field_parsers_trim_and_are_idempotent (lit "  ~:10 ")).
  vm_compute. reflexivity.
Defined.

(** ** Quotes around the label *)

Lemma existsb_repeat_false (g : rune -> bool) (r : rune) (k : nat) :
  g r = false -> existsb g (repeat r k) = false.
Proof. intros H. induction k; simpl; [reflexivity | now rewrite H]. Qed.

Lemma forallb_repeat_true (g : rune -> bool) (r : rune) (k : nat) :
  g r = true -> forallb g (repeat r k) = true.
Proof. intros H. induction k; simpl; [reflexivity | now rewrite H]. Qed.

Lemma parsePerfData_requoted (n k : nat) (pd : PerformanceData) :
  parsedShape pd ->
  parsePerfData
    (((repeat squote n ++ Label pd ++ repeat squote k)
        ++ chr "=" :: Value pd ++ UnitOfMeasurement pd)
       ++ chr ";" :: Warn pd ++ chr ";" :: Crit pd
       ++ chr ";" :: Min pd ++ chr ";" :: Max pd)
  = Ok pd.
Proof.
  intros [Hsp Hse [HL HLd] HVU HW HC HMi HMa].
  destruct pd as [L V U W C Mi Ma]. unfold fieldsOf in *.
  cbn [Label Value UnitOfMeasurement Warn Crit Min Max] in *.
  inversion Hsp as [|? ? SL Hsp1]; subst. inversion Hsp1 as [|? ? SV Hsp2]; subst.
  inversion Hsp2 as [|? ? SU Hsp3]; subst. inversion Hsp3 as [|? ? SW Hsp4]; subst.
  inversion Hsp4 as [|? ? SC Hsp5]; subst. inversion Hsp5 as [|? ? SMi Hsp6]; subst.
  inversion Hsp6 as [|? ? SMa _]; subst.
  inversion Hse as [|? ? CL Hse1]; subst. inversion Hse1 as [|? ? CV Hse2]; subst.
  inversion Hse2 as [|? ? CU Hse3]; subst. inversion Hse3 as [|? ? CW Hse4]; subst.
  inversion Hse4 as [|? ? CC Hse5]; subst. inversion Hse5 as [|? ? CMi Hse6]; subst.
  inversion Hse6 as [|? ? CMa _]; subst.
  clear Hsp Hsp1 Hsp2 Hsp3 Hsp4 Hsp5 Hsp6 Hse Hse1 Hse2 Hse3 Hse4 Hse5 Hse6.
  assert (HLq : existsb (ContainsRune [squote]) L = false).
  { revert HLd. unfold ContainsAny. apply existsb_ext_false. intros r. rune_solve. }
  assert (HLe : existsb (N.eqb (chr "=")) L = false).
  { revert HLd. unfold ContainsAny. apply existsb_ext_false. intros r. rune_solve. }
  assert (HVne : V <> []).
  { destruct HVU as [[-> _]|[H _]]; [discriminate | exact H]. }
  unfold parsePerfData. cbv zeta.
  rewrite Split_five; try assumption.
  2:{ change (chr "=" :: V ++ U) with ([chr "="] ++ V ++ U).
      repeat (apply existsb_false_app; split); try assumption;
        try reflexivity; now apply existsb_repeat_false. }
  cbn [length Z.of_nat Pos.of_succ_nat Pos.succ].
  change (5 <? perfDataMinSemicolonSeparatedFields)%Z with false.
  change (perfDataMaxSemicolonSeparatedFields <? 5)%Z with false.
  cbv iota. cbn [nth].
  assert (EC : Cut ((repeat squote n ++ L ++ repeat squote k)
                      ++ chr "=" :: V ++ U) (chr "=")
               = Some (repeat squote n ++ L ++ repeat squote k, V ++ U)).
  { apply Cut_app.
    repeat (apply existsb_false_app; split); try assumption;
      now apply existsb_repeat_false. }
  rewrite (extractLabelAndRawValue_cut _ _ _ EC).
  cbv zeta.
  assert (ET : Trim (repeat squote n ++ L ++ repeat squote k) [squote] = L).
  { unfold Trim. apply TrimFunc_layers; try assumption;
      now apply forallb_repeat_true. }
  rewrite ET.
  assert (TL : TrimSpace L = L) by apply (TrimFunc_none _ _ SL).
  assert (VLab : validatePerfDataLabelField L = None).
  { unfold validatePerfDataLabelField. cbv zeta. rewrite TL, HLd.
    apply isEmpty_false in HL. now rewrite HL. }
  assert (SVU : existsb isSpace (V ++ U) = false)
    by (apply existsb_false_app; now split).
  assert (TVU : TrimSpace (V ++ U) = V ++ U) by apply (TrimFunc_none _ _ SVU).
  assert (EVU : isEmpty (V ++ U) = false).
  { destruct V; [congruence | reflexivity]. }
  rewrite TL, VLab, TVU, EVU. cbv iota beta.
  rewrite (extractValueAndUoM_rejoin _ _ HVU).
  rewrite extractRawWarnCritMinMaxRawFieldVals_nth. cbn [nth].
  unfold parsePerfDataWarnField, parsePerfDataCritField, parsePerfDataMinField,
    parsePerfDataMaxField. cbv zeta.
  rewrite (field_parses_back validatePerfDataWarnField W SW HW).
  rewrite (field_parses_back validatePerfDataCritField C SC HC).
  rewrite (field_parses_back validatePerfDataMinField Mi SMi HMi).
  rewrite (field_parses_back validatePerfDataMaxField Ma SMa HMa).
  reflexivity.
Qed.

(** X18: the quotes around a label are optional and their number does not
    matter: the text of a parsed record with the label bare, or with any
    number of single quotes in front of it and any number behind it,
    parses to that same record. *)
Theorem label_quotes_are_optional (raw : str) (recs : list PerformanceData)
        (pd : PerformanceData) (n k : nat) :
  ParsePerfData raw = Ok recs -> In pd recs ->
  parsePerfData
    (((repeat squote n ++ Label pd ++ repeat squote k)
        ++ chr "=" :: Value pd ++ UnitOfMeasurement pd)
       ++ chr ";" :: Warn pd ++ chr ";" :: Crit pd
       ++ chr ";" :: Min pd ++ chr ";" :: Max pd)
  = Ok pd.
Proof.
  intros H Hin. apply parsePerfData_requoted.
  now apply ParsePerfData_shape with (raw := raw) (recs := recs).
Qed.

Lemma label_quotes_are_optional_witness :
  let pd := {| Label := lit "rta"; Value := lit "0.5"; UnitOfMeasurement := lit "ms";
               Warn := lit "100"; Crit := lit "500"; Min := lit "0"; Max := [] |} in
  parsePerfData (lit "rta=0.5ms;100;500;0;") = Ok pd
  /\ parsePerfData (lit "'''rta'=0.5ms;100;500;0;") = Ok pd.
Proof.
  intros pd. split.
  - apply (label_quotes_are_optional (lit "'rta'=0.5ms;100;500;0") [pd] pd 0 0).
    + vm_compute. reflexivity.
    + left. reflexivity.
  - apply (label_quotes_are_optional (lit "'rta'=0.5ms;100;500;0") [pd] pd 3 1).
    + vm_compute. reflexivity.
    + left. reflexivity.
Defined.

(** ** Rendering a whole batch *)

Lemma String_token (pd : PerformanceData) :
  String pd = chr " " :: tl (String pd).
Proof. now rewrite String_unfold. Qed.

Lemma String_token_shape (pd : PerformanceData) :
  parsedShape pd ->
  existsb isSpace (tl (String pd)) = false
  /\ tl (String pd) <> []
  /\ parsePerfData (tl (String pd)) = Ok pd
  /\ last (tl (String pd)) (chr " ") = last (chr ";" :: Max pd) (chr " ").
Proof.
  intros Hshape. rewrite String_unfold. cbn [tl].
  set (tok := (squote :: Label pd ++ squote :: chr "=" :: Value pd
                 ++ UnitOfMeasurement pd)
                ++ chr ";" :: Warn pd ++ chr ";" :: Crit pd
                ++ chr ";" :: Min pd ++ chr ";" :: Max pd).
  split; [|split; [discriminate|split]].
  - destruct Hshape as [Hsp _ _ _ _ _ _ _]. unfold fieldsOf in Hsp.
    inversion Hsp as [|? ? SL Hsp1]; subst. inversion Hsp1 as [|? ? SV Hsp2]; subst.
    inversion Hsp2 as [|? ? SU Hsp3]; subst. inversion Hsp3 as [|? ? SW Hsp4]; subst.
    inversion Hsp4 as [|? ? SC Hsp5]; subst. inversion Hsp5 as [|? ? SMi Hsp6]; subst.
    inversion Hsp6 as [|? ? SMa _]; subst.
    change tok with
      (([squote] ++ Label pd ++ [squote; chr "="] ++ Value pd
          ++ UnitOfMeasurement pd)
         ++ [chr ";"] ++ Warn pd ++ [chr ";"] ++ Crit pd
         ++ [chr ";"] ++ Min pd ++ [chr ";"] ++ Max pd).
    repeat (apply existsb_false_app; split); try assumption; reflexivity.
  - now apply parsePerfData_rendered.
  - assert (E : tok =
                ((squote :: Label pd ++ squote :: chr "=" :: Value pd
                    ++ UnitOfMeasurement pd)
                   ++ chr ";" :: Warn pd ++ chr ";" :: Crit pd
                   ++ chr ";" :: Min pd) ++ chr ";" :: Max pd).
    { unfold tok. repeat (rewrite <- app_assoc; cbn [app]). reflexivity. }
    rewrite E. apply last_app_cons.
Qed.

Lemma Fields_cons_space (s : str) : Fields (chr " " :: s) = Fields s.
Proof.
  unfold Fields. cbn [splitFunc]. change (isSpace (chr " ")) with true.
  reflexivity.
Qed.

Lemma Fields_spaced (toks : list str) :
  Forall (fun t => existsb isSpace t = false /\ t <> []) toks ->
  Fields (concat (map (cons (chr " ")) toks)) = toks.
Proof.
  induction 1 as [|t ts [Ht Hne] F IH]; [reflexivity|].
  cbn [map concat]. change ((chr " " :: t) ++ concat (map (cons (chr " ")) ts))
    with (chr " " :: t ++ concat (map (cons (chr " ")) ts)).
  rewrite Fields_cons_space.
  apply isEmpty_false in Hne.
  destruct ts as [|t' ts'].
  - cbn [map concat]. rewrite app_nil_r. unfold Fields.
    rewrite (splitFunc_none _ _ Ht). cbn [filter]. now rewrite Hne.
  - cbn [map concat] in *.
    change ((chr " " :: t') ++ concat (map (cons (chr " ")) ts'))
      with (chr " " :: t' ++ concat (map (cons (chr " ")) ts')) in *.
    rewrite Fields_cons_space in IH. unfold Fields in *.
    rewrite splitFunc_app by (reflexivity || exact Ht).
    cbn [filter]. now rewrite Hne, IH.
Qed.

Lemma TrimFunc_ends_default (f : rune -> bool) (s : str) (d : rune) :
  s <> [] -> f (hd d s) = false -> f (last s d) = false -> TrimFunc s f = s.
Proof.
  destruct s as [|r s]; [congruence|]. intros _ Hr Hl. cbn [hd] in Hr.
  apply TrimFunc_ends; [exact Hr|].
  destruct s as [|x s]; [exact Hr|].
  rewrite (last_default x s r d). exact Hl.
Qed.

Lemma existsb_false_forallb_false {A : Type} (f : A -> bool) (s : list A) :
  existsb f s = false -> s <> [] -> forallb f s = false.
Proof.
  destruct s as [|r s]; [congruence|]. simpl. intros H _.
  apply orb_false_iff in H as [H _]. now rewrite H.
Qed.

(** X19: the renderings of the records of a parsed batch, put one after
    the other, parse back to the same records in the same order; the
    leading space of each rendering is what separates them.  The Max of
    the last record must not end in a double quote. *)
Theorem batch_roundtrip (raw : str) (front : list PerformanceData)
        (pd : PerformanceData) :
  ParsePerfData raw = Ok (front ++ [pd]) ->
  last (Max pd) 0 <> dquote ->
  ParsePerfData (concat (map String (front ++ [pd]))) = Ok (front ++ [pd]).
Proof.
  intros H Hlast.
  set (recs := front ++ [pd]) in *.
  assert (Hshape : forall p, In p recs -> parsedShape p).
  { intros p Hp. now apply ParsePerfData_shape with (raw := raw) (recs := recs). }
  set (toks := map (fun p => tl (String p)) recs).
  assert (E1 : concat (map String recs) = concat (map (cons (chr " ")) toks)).
  { unfold toks. clear. induction recs as [|p recs IH]; [reflexivity|].
    cbn [map concat]. now rewrite IH, <- String_token. }
  assert (Hclean : Forall (fun t => existsb isSpace t = false /\ t <> []) toks).
  { unfold toks. apply Forall_forall. intros t Ht.
    apply in_map_iff in Ht as (p & <- & Hp).
    destruct (String_token_shape p (Hshape p Hp)) as (A & B & _). now split. }
  assert (Hparse : Forall2 (fun m p => parsePerfData m = Ok p) toks recs).
  { unfold toks. clear - Hshape. induction recs as [|p recs IH]; [constructor|].
    cbn [map]. constructor.
    - apply String_token_shape. apply Hshape. now left.
    - apply IH. intros q Hq. apply Hshape. now right. }
  assert (Hpd : In pd recs).
  { unfold recs. apply in_or_app. right. now left. }
  destruct (String_token_shape pd (Hshape pd Hpd)) as (Hns & Hne & _ & Hl).
  assert (Ewhole : concat (map String recs)
                   = concat (map String front) ++ chr " " :: tl (String pd)).
  { unfold recs. rewrite map_app, concat_app. cbn [map concat].
    now rewrite app_nil_r, <- String_token. }
  assert (Hhd : hd (chr " ") (concat (map String recs)) = chr " ").
  { unfold recs. destruct front as [|p front]; cbn [app map concat];
      now rewrite (String_token _). }
  assert (Hnonblank : TrimSpace (concat (map String recs)) <> []).
  { unfold TrimSpace. intros T. apply TrimFunc_nil in T. rewrite Ewhole in T.
    rewrite forallb_app in T. apply andb_true_iff in T as [_ T].
    cbn [forallb] in T. apply andb_true_iff in T as [_ T].
    rewrite (existsb_false_forallb_false _ _ Hns Hne) in T. discriminate. }
  assert (Hend : ContainsRune [dquote] (last (concat (map String recs)) (chr " "))
                 = false).
  { rewrite Ewhole, last_app_cons.
    destruct (tl (String pd)) as [|x t] eqn:Et; [congruence|].
    change (last (chr " " :: x :: t) (chr " ")) with (last (x :: t) (chr " ")).
    rewrite Hl. destruct (Max pd) as [|r ma]; [reflexivity|].
    change (last (chr ";" :: r :: ma) (chr " ")) with (last (r :: ma) (chr " ")).
    rewrite (last_default r ma (chr " ") 0).
    unfold ContainsRune. cbn [existsb]. rewrite orb_false_r.
    apply N.eqb_neq. exact Hlast. }
  unfold ParsePerfData.
  apply isEmpty_false in Hnonblank as Hnb. rewrite Hnb.
  unfold Trim. rewrite (TrimFunc_ends_default _ _ (chr " ")).
  - rewrite E1, (Fields_spaced toks Hclean).
    now rewrite (parseEach_of_Forall2 toks [] recs Hparse).
  - intros E. rewrite E in Hnonblank. now apply Hnonblank.
  - rewrite Hhd. reflexivity.
  - exact Hend.
Qed.

Lemma batch_roundtrip_witness :
  let p1 := {| Label := lit "load1"; Value := lit "0.26"; UnitOfMeasurement := [];
               Warn := lit "5"; Crit := lit "10"; Min := lit "0"; Max := [] |} in
  let p2 := {| Label := lit "rta"; Value := lit "12"; UnitOfMeasurement := lit "ms";
               Warn := []; Crit := []; Min := []; Max := lit "100" |} in
  ParsePerfData (concat (map String ([p1] ++ [p2]))) = Ok ([p1] ++ [p2]).
Proof.
  intros p1 p2.
  apply (batch_roundtrip (lit "load1=0.26;5;10;0; 'rta'=12ms;;;;100") [p1] p2).
  - vm_compute. reflexivity.
  - vm_compute. discriminate.
Defined.
